(** * Gemara policy resolver and control-file validator

    A shallow embedding of [tools/gemara-resolve-example.py] (the policy
    resolver) and [tools/validate-control-files.py] (the cross-reference
    validator), with the properties of their merge, naming, extraction and
    validation algorithms.

    Conventions of the embedding.
    - A Python [str] is a [string]: the sequence of its UTF-8 bytes.  The
      operations used by the two scripts (equality, concatenation, splitting
      on a dot, matching against the ASCII double quote and slash,
      ordering by code point) act on the UTF-8 bytes exactly as they act on
      the code points.
    - A dictionary key read with [d.get(k)] is an [option] field ([None]: the
      key is absent); a key read with [d.get(k, [])] that is only ever
      iterated is a list (absent: empty); a key read with [d[k]] is a plain
      field.
    - A document returned by [json.load] is a [json] value, objects being
      finite maps from strings.
    - A raised exception is a [Raise] in the [result] monad.
    - Writing a file is an operation of the file system, which the generator
      that writes takes as a parameter: it yields the directory after the
      call and the exception raised, if any. *)

From stdpp Require Import gmap strings list sorting.
From Stdlib Require Import Ascii QArith.
Close Scope Q_scope.
Set Warnings "-register-all".

(** ** Python primitives *)

Module Py.

(** Exceptions the modelled code can raise. *)
Inductive exn :=
| AttributeError (msg : string)
| TypeError (msg : string)
| OSError (msg : string).

Inductive result (A : Type) :=
| Ok (a : A)
| Raise (e : exn).
Global Arguments Ok {A} a.
Global Arguments Raise {A} e.

Global Instance result_ret : MRet result := fun A a => Ok a.
Global Instance result_bind : MBind result := fun A B f m =>
  match m with
  | Ok a => f a
  | Raise e => Raise e
  end.

(** A [for] loop whose body updates the loop state [S] and may raise. *)
Fixpoint for_each {S A : Type} (body : S -> A -> result S)
    (l : list A) (s : S) : result S :=
  match l with
  | [] => Ok s
  | x :: l' => s' ← body s x; for_each body l' s'
  end.

(** A loop body that only appends to the list it is given. *)
Definition appends {S A : Type} (body : list S -> A -> result (list S))
    : Prop :=
  forall acc x, body acc x = (seg ← body [] x; Ok (acc ++ seg)).

(** [f"{x}"] for a value that is a string or [None]. *)
Definition py_str (x : option string) : string :=
  match x with
  | Some s => s
  | None => "None"
  end.

(** [s.split(sep)] for a separator of one character. *)
Fixpoint split (sep : ascii) (s : string) : list string :=
  match s with
  | EmptyString => [EmptyString]
  | String c s' =>
      if bool_decide (c = sep) then EmptyString :: split sep s'
      else match split sep s' with
           | h :: t => String c h :: t
           | [] => [String c EmptyString]
           end
  end.

(** [l[-1]] of a list that [split] returned (never empty). *)
Definition last_item (l : list string) : string := List.last l EmptyString.

(** [s.startswith(p)], returning what follows the prefix. *)
Fixpoint strip_prefix (p s : string) : option string :=
  match p with
  | EmptyString => Some s
  | String a p' =>
      match s with
      | String b s' => if bool_decide (a = b) then strip_prefix p' s' else None
      | EmptyString => None
      end
  end.

(** The longest prefix of [s] without the character [stop] (what the
    greedy class [[^stop]*] consumes), and the rest. *)
Fixpoint span_not (stop : ascii) (s : string) : string * string :=
  match s with
  | EmptyString => (EmptyString, EmptyString)
  | String c s' =>
      if bool_decide (c = stop) then (EmptyString, s)
      else let '(a, b) := span_not stop s' in (String c a, b)
  end.

End Py.
Import Py.

(** ** The policy resolver ([gemara-resolve-example.py]) *)

Module Resolver.

(** An entry of a base control's ["assessment-requirements"]. *)
Record AssessmentRequirement := {
  ar_id : string;
  ar_text : string;
  ar_applicability : option (list string)
}.

(** An entry of ["assessment-requirement-modifications"]. *)
Record AssessmentMod := {
  am_target_id : option string;
  am_text : option string;
  am_applicability : option (list string)
}.

(** An entry of ["control-modifications"]. *)
Record ControlMod := {
  cm_target_id : option string;
  cm_title : option string;
  cm_objective : option string
}.

(** An entry of ["control-references"]. *)
Record ControlRef := {
  reference_id : option string;
  control_modifications : list ControlMod;
  assessment_requirement_modifications : list AssessmentMod
}.

Record Policy := {
  metadata_id : string;
  control_references : list ControlRef
}.

(** A requirement of a resolved control: either a base requirement kept
    as it is, or a dictionary built from a modification, whose ["id"] is
    [mod.get("target-id")]. *)
Record Requirement := {
  req_id : option string;
  req_text : string;
  req_applicability : option (list string)
}.

(** A control, base ([R := AssessmentRequirement]) or resolved
    ([R := Requirement]). *)
Record Control (R : Type) := {
  c_id : option string;
  c_catalog_id : option string;
  c_title : option string;
  c_objective : option string;
  c_assessment_requirements : list R
}.
Global Arguments c_id {R} _.
Global Arguments c_catalog_id {R} _.
Global Arguments c_title {R} _.
Global Arguments c_objective {R} _.
Global Arguments c_assessment_requirements {R} _.

(** An element of the list [resolve_assessment_requirements] returns. *)
Record ResolvedRequirement := {
  requirement_id : option string;
  control_id : option string;
  catalog_id : option string;
  policy_id : string;
  text : string;
  applicability : list string;
  is_modified : bool;
  base_requirement_id : option string;
  gemara_url : string;
  base_requirement_url : string;
  control_title : option string;
  control_objective : string
}.

(** [f"gemara://policies/{policy_id}/controls/{control_id}/requirements/{requirement_id}"] *)
Definition canonicalUrl (policyId controlId requirementId : string) : string :=
  "gemara://policies/" +:+ policyId +:+ "/controls/" +:+ controlId
    +:+ "/requirements/" +:+ requirementId.

(** [f"gemara://controls/{catalog_id}/{control_id}/requirements/{requirement_id}"] *)
Definition baseUrl (catalogId controlId requirementId : string) : string :=
  "gemara://controls/" +:+ catalogId +:+ "/" +:+ controlId
    +:+ "/requirements/" +:+ requirementId.

(** [_get_base_control]: the placeholder catalog of the script. *)
Definition _get_base_control (catalog_id control_id : option string)
    : Control AssessmentRequirement :=
  {| c_id := control_id;
     c_catalog_id := catalog_id;
     c_title := Some ("Base Control " +:+ py_str control_id);
     c_objective := Some ("Base control objective for " +:+ py_str control_id);
     c_assessment_requirements :=
       [ {| ar_id := py_str control_id +:+ ".TR01";
            ar_text := "Base assessment requirement text";
            ar_applicability := Some ["default"] |} ] |}.

(** [resolved_reqs.append(base_req)]: a base requirement kept as it is. *)
Definition keep (base_req : AssessmentRequirement) : Requirement :=
  {| req_id := Some (ar_id base_req);
     req_text := ar_text base_req;
     req_applicability := ar_applicability base_req |}.

(** [if d.get(k):] on a string-valued key: present and not empty. *)
Definition is_set (x : option string) : bool :=
  match x with
  | Some s => negb (bool_decide (s = EmptyString))
  | None => false
  end.

(** Body of the first loop of [_apply_modifications].  The modification
    found by [next] has ["target-id"] equal to a string, hence is a
    non-empty dictionary and [if mod:] holds exactly when one was found. *)
Definition merge_base (assessment_mods : list AssessmentMod)
    (base_req : AssessmentRequirement) : Requirement :=
  let req_id := ar_id base_req in
  match List.find (fun am => bool_decide (am_target_id am = Some req_id))
                  assessment_mods with
  | Some mod_ =>
      {| req_id := Some (default req_id (am_target_id mod_));
         req_text := default (ar_text base_req) (am_text mod_);
         req_applicability :=
           Some (default (default [] (ar_applicability base_req))
                         (am_applicability mod_)) |}
  | None => keep base_req
  end.

(** Body of the second loop of [_apply_modifications]. *)
Definition add_new (resolved_reqs : list Requirement) (mod_ : AssessmentMod)
    : list Requirement :=
  if negb (existsb (fun req => bool_decide (req_id req = am_target_id mod_))
                   resolved_reqs)
  then resolved_reqs ++
         [ {| req_id := am_target_id mod_;
              req_text := default EmptyString (am_text mod_);
              req_applicability := Some (default [] (am_applicability mod_)) |} ]
  else resolved_reqs.

Definition _apply_modifications (base_control : Control AssessmentRequirement)
    (control_mod : ControlMod) (assessment_mods : list AssessmentMod)
    : Control Requirement :=
  let title :=
    if is_set (cm_title control_mod) then cm_title control_mod
    else c_title base_control in
  let objective :=
    if is_set (cm_objective control_mod) then cm_objective control_mod
    else c_objective base_control in
  let resolved_reqs :=
    List.map (merge_base assessment_mods)
             (c_assessment_requirements base_control) in
  let resolved_reqs := fold_left add_new assessment_mods resolved_reqs in
  {| c_id := c_id base_control;
     c_catalog_id := c_catalog_id base_control;
     c_title := title;
     c_objective := objective;
     c_assessment_requirements := resolved_reqs |}.

(** The dictionary appended for one requirement of a resolved control. *)
Definition resolve_requirement (policy_id : string)
    (catalog_id control_id : option string)
    (base_control : Control AssessmentRequirement)
    (resolved_control : Control Requirement)
    (assessment_mods : list AssessmentMod) (req : Requirement)
    : result ResolvedRequirement :=
  let requirement_id := req_id req in
  let is_modified :=
    existsb (fun am => bool_decide (am_target_id am = requirement_id))
            assessment_mods in
  base_id ←
    (if is_modified then
       match requirement_id with
       | Some rid =>
           Ok (Some (py_str control_id +:+ "." +:+ last_item (split "." rid)))
       | None =>
           Raise (AttributeError "'NoneType' object has no attribute 'split'")
       end
     else Ok requirement_id);
  Ok {| requirement_id := requirement_id;
        control_id := control_id;
        catalog_id := catalog_id;
        policy_id := policy_id;
        text := req_text req;
        applicability := default [] (req_applicability req);
        is_modified := is_modified;
        base_requirement_id := base_id;
        gemara_url :=
          canonicalUrl policy_id (py_str control_id) (py_str requirement_id);
        base_requirement_url :=
          baseUrl (py_str catalog_id) (py_str control_id) (py_str requirement_id);
        control_title :=
          match c_title resolved_control with
          | Some t => Some t
          | None => match c_title base_control with
                    | Some t => Some t
                    | None => control_id
                    end
          end;
        control_objective :=
          default (default EmptyString (c_objective base_control))
                  (c_objective resolved_control) |}.

Section WithCatalog.

(** [self._get_base_control], the catalog the resolver reads. *)
Variable get_base_control :
  option string -> option string -> Control AssessmentRequirement.

(** Body of [for mod in control_mods:]. *)
Definition resolve_control_mod (policy_id : string)
    (catalog_id : option string) (assessment_mods : list AssessmentMod)
    (resolved_requirements : list ResolvedRequirement) (mod_ : ControlMod)
    : result (list ResolvedRequirement) :=
  let control_id := cm_target_id mod_ in
  let base_control := get_base_control catalog_id control_id in
  let resolved_control :=
    _apply_modifications base_control mod_ assessment_mods in
  for_each
    (fun acc req =>
       r ← resolve_requirement policy_id catalog_id control_id base_control
             resolved_control assessment_mods req;
       Ok (acc ++ [r]))
    (c_assessment_requirements resolved_control)
    resolved_requirements.

(** Body of [for control_ref in control_refs:]. *)
Definition resolve_control_ref (policy_id : string)
    (resolved_requirements : list ResolvedRequirement)
    (control_ref : ControlRef) : result (list ResolvedRequirement) :=
  let catalog_id := reference_id control_ref in
  let control_mods := control_modifications control_ref in
  let assessment_mods := assessment_requirement_modifications control_ref in
  for_each (resolve_control_mod policy_id catalog_id assessment_mods)
           control_mods resolved_requirements.

Definition resolve_with (policy : Policy)
    : result (list ResolvedRequirement) :=
  let policy_id := metadata_id policy in
  for_each (resolve_control_ref policy_id) (control_references policy) [].

End WithCatalog.

(** [PolicyResolver.resolve_assessment_requirements], reading the
    placeholder catalog. *)
Definition resolve_assessment_requirements
    : Policy -> result (list ResolvedRequirement) :=
  resolve_with _get_base_control.

(** The placeholder policy of [main], for the policy id [args.policy]. *)
Definition placeholder_policy (policy : string) : Policy :=
  {| metadata_id := policy;
     control_references :=
       [ {| reference_id := Some "FINOS-CCC";
            control_modifications :=
              [ {| cm_target_id := Some "CCC.C01";
                   cm_title := Some "Enhanced Encryption";
                   cm_objective :=
                     Some "Enhanced encryption for cloud infrastructure" |} ];
            assessment_requirement_modifications :=
              [ {| am_target_id := Some "CCC.C01.TR01";
                   am_text :=
                     Some "All HTTPS communications MUST use TLS 1.3 or higher";
                   am_applicability := Some ["default"] |} ] |} ] |}.

End Resolver.
Import Resolver.

(** ** The control-file validator ([validate-control-files.py]) *)

Module Validator.

(** What [json.load] returns.  A number is a rational: the validator only
    ever tests a number for being zero. *)
Inductive json :=
| JNull
| JBool (b : bool)
| JNum (q : Q)
| JStr (s : string)
| JArr (l : list json)
| JObj (o : gmap string json).

(** [bool(x)], as tested by [if not x:]. *)
Definition truthy (x : json) : bool :=
  match x with
  | JNull => false
  | JBool b => b
  | JNum q => negb (Qeq_bool q 0%Q)
  | JStr s => negb (bool_decide (s = EmptyString))
  | JArr l => match l with [] => false | _ :: _ => true end
  | JObj o => negb (bool_decide (size o = 0%nat))
  end.

(** [x.get(k, d)]: only a dictionary has the method. *)
Definition get (x : json) (k : string) (d : json) : result json :=
  match x with
  | JObj o => Ok (default d (o !! k))
  | _ => Raise (AttributeError "object has no attribute 'get'")
  end.

(** [k in x].  Every use follows an [x.get] that succeeded, so [x] is a
    dictionary there; the other values are never reached. *)
Definition contains (x : json) (k : string) : result bool :=
  match x with
  | JObj o => Ok (bool_decide (is_Some (o !! k)))
  | _ => Raise (TypeError "not a dictionary")
  end.

(** [x == s] for a string [s]: only an equal string is equal to it. *)
Definition eq_str (x : json) (s : string) : bool :=
  match x with
  | JStr t => bool_decide (t = s)
  | _ => false
  end.

(** What reading and parsing a file yields, every time it is read. *)
Inductive load_result :=
| Json (data : json)
| JSONDecodeError
| ReadError (e : exn).

(** A file of [controls_dir.glob("*.requirement.json")]. *)
Record control_file := {
  cf_path : string;
  cf_load : load_result
}.

(** A file of [architecture_dir.glob("*.arch.json")]; [None]: [read_text]
    raises. *)
Record arch_file := {
  af_path : string;
  af_read_text : option string
}.

(** The double quote character. *)
Definition quote : ascii := "034"%char.

(** The pattern [gemara://[^QUOTE]+] matched at the start of [s]: the
    greedy class takes every character up to the next quote, and needs
    one at least. *)
Definition match_url_at (s : string) : option string :=
  match strip_prefix "gemara://" s with
  | Some rest =>
      match fst (span_not quote rest) with
      | EmptyString => None
      | body => Some ("gemara://" +:+ body)
      end
  | None => None
  end.

(** [re.findall]: try the pattern at each position from left to right; a
    match is recorded and the scan resumes where it ended.  [skip] counts
    the characters still covered by the last match. *)
Fixpoint findall_from (skip : nat) (s : string) : list string :=
  match s with
  | EmptyString => []
  | String _ s' =>
      match skip with
      | S k => findall_from k s'
      | O =>
          match match_url_at s with
          | Some m => m :: findall_from (String.length m - 1) s'
          | None => findall_from 0 s'
          end
      end
  end.

Definition findall (content : string) : list string := findall_from 0 content.

(** [sorted(urls)]: ascending by code point. *)
Definition sorted (urls : gset string) : list string :=
  merge_sort String.le (elements urls).

Definition extract_gemara_urls (architecture_dir : list arch_file)
    : list string :=
  let urls :=
    fold_left
      (fun (urls : gset string) arch_file =>
         match af_read_text arch_file with
         | Some content => urls ∪ list_to_set (findall content)
         | None => urls
         end)
      architecture_dir ∅ in
  sorted urls.

Definition find_control_file (url : string) (controls_dir : list control_file)
    : option control_file :=
  List.find
    (fun control_file =>
       match cf_load control_file with
       | Json data =>
           match get data "$id" (JStr EmptyString) with
           | Ok file_id => eq_str file_id url
           | Raise _ => false
           end
       | _ => false
       end)
    controls_dir.

(** The second component of what [validate_control_file] returns. *)
Inductive message :=
| IdMismatch (expected_url : string) (file_id : json)
| MissingRequiredField (field : string)
| LayerMissingRequiredField (layer field : string)
| InvalidJSON
| ErrorReadingFile (e : exn).

(** The body of the [try] of [validate_control_file], after [json.load]. *)
Definition validate_data (data : json) (expected_url : string)
    : result (bool * option message) :=
  file_id ← get data "$id" (JStr EmptyString);
  if negb (eq_str file_id expected_url)
  then Ok (false, Some (IdMismatch expected_url file_id)) else
  has_control_id ← contains data "control-id";
  if negb has_control_id
  then Ok (false, Some (MissingRequiredField "control-id")) else
  has_metadata ← contains data "metadata";
  if negb has_metadata
  then Ok (false, Some (MissingRequiredField "metadata")) else
  metadata ← get data "metadata" (JObj ∅);
  gemara_meta ← get metadata "gemara" (JObj ∅);
  if negb (truthy gemara_meta)
  then Ok (false, Some (MissingRequiredField "metadata.gemara")) else
  layer ← get gemara_meta "layer" (JStr EmptyString);
  has_requirement_id ← contains gemara_meta "requirement-id";
  if negb has_requirement_id
  then Ok (false, Some (MissingRequiredField "metadata.gemara.requirement-id")) else
  has_source ← contains gemara_meta "source";
  if negb has_source
  then Ok (false, Some (MissingRequiredField "metadata.gemara.source")) else
  has_applicability ← contains gemara_meta "applicability";
  if negb has_applicability
  then Ok (false, Some (MissingRequiredField "metadata.gemara.applicability")) else
  if eq_str layer "Layer 3" then
    has_policy_id ← contains gemara_meta "policy-id";
    if negb has_policy_id
    then Ok (false, Some (LayerMissingRequiredField "Layer 3" "metadata.gemara.policy-id")) else
    has_base ← contains gemara_meta "base-requirement";
    if negb has_base
    then Ok (false, Some (LayerMissingRequiredField "Layer 3" "metadata.gemara.base-requirement"))
    else Ok (true, None)
  else if eq_str layer "Layer 2" then
    has_catalog_id ← contains gemara_meta "catalog-id";
    if negb has_catalog_id
    then Ok (false, Some (LayerMissingRequiredField "Layer 2" "metadata.gemara.catalog-id"))
    else Ok (true, None)
  else Ok (true, None).

Definition validate_control_file (control_file : control_file)
    (expected_url : string) : bool * option message :=
  match cf_load control_file with
  | Json data =>
      match validate_data data expected_url with
      | Ok r => r
      | Raise e => (false, Some (ErrorReadingFile e))
      end
  | JSONDecodeError => (false, Some InvalidJSON)
  | ReadError e => (false, Some (ErrorReadingFile e))
  end.

(** [re.match(r'gemara://policies/([^/]+)/controls/', url)], group 1. *)
Definition match_policy_url (url : string) : option string :=
  match strip_prefix "gemara://policies/" url with
  | Some rest =>
      let '(policy_id, tail) := span_not "/"%char rest in
      match policy_id, strip_prefix "/controls/" tail with
      | String _ _, Some _ => Some policy_id
      | _, _ => None
      end
  | None => None
  end.

Inductive error :=
| MissingControlFile (url : string)
| InvalidControlFile (control_file : string) (error_msg : option message).

Inductive warning :=
| PolicyIdMismatch (control_file expected_policy_id : string)
                   (file_policy_id : json).

(** The policy-id consistency check of [main], with its [try]. *)
Definition check_policy_id (control_file : control_file) (url : string)
    : list warning :=
  match cf_load control_file with
  | Json data =>
      let checked : result (list warning) :=
        metadata ← get data "metadata" (JObj ∅);
        gemara_meta ← get metadata "gemara" (JObj ∅);
        layer ← get gemara_meta "layer" JNull;
        if eq_str layer "Layer 3" then
          match match_policy_url url with
          | Some expected_policy_id =>
              file_policy_id ← get gemara_meta "policy-id" (JStr EmptyString);
              if negb (eq_str file_policy_id expected_policy_id)
              then Ok [PolicyIdMismatch (cf_path control_file)
                         expected_policy_id file_policy_id]
              else Ok []
          | None => Ok []
          end
        else Ok [] in
      match checked with
      | Ok ws => ws
      | Raise _ => []
      end
  | _ => []
  end.

(** Body of [for url in urls:], on the pair of [errors] and [warnings]. *)
Definition check_url (controls_dir : list control_file)
    (acc : list error * list warning) (url : string)
    : list error * list warning :=
  let '(errors, warnings) := acc in
  match find_control_file url controls_dir with
  | None => (errors ++ [MissingControlFile url], warnings)
  | Some control_file =>
      let '(is_valid, error_msg) := validate_control_file control_file url in
      if negb is_valid
      then (errors ++ [InvalidControlFile (cf_path control_file) error_msg],
            warnings)
      else (errors, warnings ++ check_policy_id control_file url)
  end.

(** How a run of [main] ends: the status passed to [sys.exit], and the
    two lists as they are then ([[]] before they are created). *)
Record report := {
  exit_code : Z;
  errors : list error;
  warnings : list warning
}.

(** [main]; a directory that does not exist is [None]. *)
Definition main (architecture_dir : option (list arch_file))
    (controls_dir : option (list control_file)) : report :=
  match architecture_dir with
  | None => {| exit_code := 1; errors := []; warnings := [] |}
  | Some architecture_dir =>
      match controls_dir with
      | None => {| exit_code := 1; errors := []; warnings := [] |}
      | Some controls_dir =>
          let urls := extract_gemara_urls architecture_dir in
          match urls with
          | [] => {| exit_code := 0; errors := []; warnings := [] |}
          | _ :: _ =>
              let '(errors, warnings) :=
                fold_left (check_url controls_dir) urls ([], []) in
              match errors with
              | _ :: _ =>
                  {| exit_code := 1; errors := errors; warnings := warnings |}
              | [] =>
                  {| exit_code := 0; errors := errors; warnings := warnings |}
              end
          end
      end
  end.

End Validator.
Import Validator.

(** ** The properties, in the words of the specification *)

Module Spec.

(** [c] occurs in [s]. *)
Fixpoint mentions (c : ascii) (s : string) : bool :=
  match s with
  | EmptyString => false
  | String a s' => bool_decide (a = c) || mentions c s'
  end.

(** *** Merging assessment requirements (4.1) *)

(** The first modification of the list whose target id is [id]. *)
Definition modification_for (assessment_mods : list AssessmentMod)
    (id : string) : option AssessmentMod :=
  List.find (fun am => bool_decide (am_target_id am = Some id)) assessment_mods.

(** Step 1: a base requirement, with text and applicability replaced by
    the override values when present; the id is the base id. *)
Definition overridden (assessment_mods : list AssessmentMod)
    (b : AssessmentRequirement) : Requirement :=
  match modification_for assessment_mods (ar_id b) with
  | Some am =>
      {| req_id := Some (ar_id b);
         req_text := match am_text am with
                     | Some t => t
                     | None => ar_text b
                     end;
         req_applicability :=
           match am_applicability am with
           | Some a => Some a
           | None => Some (default [] (ar_applicability b))
           end |}
  | None => keep b
  end.

(** The target id of [am] matches no base requirement. *)
Definition unmatched (base : list AssessmentRequirement)
    (am : AssessmentMod) : bool :=
  negb (existsb (fun b => bool_decide (am_target_id am = Some (ar_id b))) base).

(** Step 2: a modification as a new requirement, missing fields empty. *)
Definition new_requirement (am : AssessmentMod) : Requirement :=
  {| req_id := am_target_id am;
     req_text := match am_text am with Some t => t | None => EmptyString end;
     req_applicability :=
       match am_applicability am with Some a => Some a | None => Some [] end |}.

(** The merge as the two steps are worded: every unmatched modification is
    appended. *)
Definition merge_as_stated (base : list AssessmentRequirement)
    (assessment_mods : list AssessmentMod) : list Requirement :=
  List.map (overridden assessment_mods) base
    ++ List.map new_requirement (List.filter (unmatched base) assessment_mods).

(** The unmatched modifications that are the first of the list with their
    target id; [earlier] holds the modifications that come before. *)
Fixpoint first_unmatched (earlier : list AssessmentMod)
    (base : list AssessmentRequirement) (assessment_mods : list AssessmentMod)
    : list AssessmentMod :=
  match assessment_mods with
  | [] => []
  | am :: rest =>
      (if unmatched base am
          && negb (existsb (fun e => bool_decide (am_target_id e = am_target_id am))
                           earlier)
       then [am] else [])
      ++ first_unmatched (earlier ++ [am]) base rest
  end.

(** The merge with one new requirement per unmatched target id. *)
Definition merge (base : list AssessmentRequirement)
    (assessment_mods : list AssessmentMod) : list Requirement :=
  List.map (overridden assessment_mods) base
    ++ List.map new_requirement (first_unmatched [] base assessment_mods).

(** The requirement ids of a resolved control. *)
Definition requirement_ids (resolved : Control Requirement)
    : list (option string) :=
  List.map req_id (c_assessment_requirements resolved).




(** *** Canonical URLs (4.2, 6) *)

(** The grammar
    [gemara://policies/<policy-id>/controls/<control-id>/requirements/<requirement-id>]
    read back, the policy id and the control id ending at the next slash. *)
Definition parse_canonical_url (url : string)
    : option (string * string * string) :=
  rest ← strip_prefix "gemara://policies/" url;
  let '(policy_id, rest) := span_not "/"%char rest in
  rest ← strip_prefix "/controls/" rest;
  let '(control_id, rest) := span_not "/"%char rest in
  requirement_id ← strip_prefix "/requirements/" rest;
  Some (policy_id, control_id, requirement_id).

(** *** Artifacts (4.4) *)

(** The field [k] at the top level of an artifact. *)
Definition top_field (data : json) (k : string) : option json :=
  match data with
  | JObj o => o !! k
  | _ => None
  end.

(** The [$id] of an artifact, the empty string when it has none. *)
Definition artifact_id (data : json) : json :=
  default (JStr EmptyString) (top_field data "$id").

(** The object [metadata.gemara] of an artifact. *)
Definition gemara_meta_of (data : json) : option (gmap string json) :=
  match top_field data "metadata" with
  | Some (JObj m) =>
      match m !! "gemara" with
      | Some (JObj g) => Some g
      | _ => None
      end
  | _ => None
  end.

(** The field [k] of [metadata.gemara] of an artifact. *)
Definition gemara_field (data : json) (k : string) : option json :=
  match gemara_meta_of data with
  | Some g => g !! k
  | None => None
  end.

(** The fields required of every artifact, whatever its layer: the
    identity equal to the URL, [control-id], [metadata] with a non-empty
    [metadata.gemara], and in it [requirement-id], [source] and
    [applicability]. *)
Definition always_required (data : json) (url : string) : Prop :=
  artifact_id data = JStr url
  /\ is_Some (top_field data "control-id")
  /\ is_Some (gemara_field data "requirement-id")
  /\ is_Some (gemara_field data "source")
  /\ is_Some (gemara_field data "applicability").

(** The fields required of an artifact by its layer. *)
Definition layer_required (data : json) : Prop :=
  (gemara_field data "layer" = Some (JStr "Layer 3") ->
   is_Some (gemara_field data "policy-id")
   /\ is_Some (gemara_field data "base-requirement"))
  /\ (gemara_field data "layer" = Some (JStr "Layer 2") ->
      is_Some (gemara_field data "catalog-id")).

(** *** Extraction (4.4) *)

(** [u] is an occurrence in [content] of [gemara://] followed by one or
    more characters other than the quote, up to the next quote or the end
    of the text. *)
Definition url_occurrence (content u : string) : Prop :=
  exists pre body post,
    content = pre +:+ u +:+ post
    /\ u = "gemara://" +:+ body
    /\ body <> EmptyString
    /\ mentions quote body = false
    /\ (post = EmptyString \/ exists post', post = String quote post').

(** Every occurrence in [content] of [gemara://] followed by a character
    other than the quote lies in one of [urls], which ends where the
    occurrence, taken up to the next quote or the end of the text, ends. *)
Definition covered (content : string) (urls : list string) : Prop :=
  forall pre c rest,
    content = pre +:+ "gemara://" +:+ String c rest ->
    c <> quote ->
    exists u lead,
      In u urls
      /\ u = lead +:+ "gemara://" +:+ fst (span_not quote (String c rest)).

(** What the body of the loop yields for each URL when it starts from
    empty lists, for the URLs in the order given: the loop unfolded. *)
Definition contributions (controls_dir : list control_file)
    (urls : list string) : list error * list warning :=
  (List.flat_map (fun url => fst (check_url controls_dir ([], []) url)) urls,
   List.flat_map (fun url => snd (check_url controls_dir ([], []) url)) urls).

(** *** Errors and warnings of a run (4.4, 7) *)

(** The errors that one URL contributes: one when no artifact has the URL
    as its identity, one when the artifact found for it fails structural
    validation, none otherwise. *)
Definition url_errors (controls_dir : list control_file) (url : string)
    : list error :=
  match find_control_file url controls_dir with
  | None => [MissingControlFile url]
  | Some artifact =>
      match validate_control_file artifact url with
      | (true, _) => []
      | (false, msg) => [InvalidControlFile (cf_path artifact) msg]
      end
  end.

(** The policy-id warning of an artifact: one, when the artifact is of
    Layer 3, the URL embeds a policy id, and the policy id in the metadata
    of the artifact (the empty string when it has none) is another. *)
Definition policy_warnings (artifact : control_file) (url : string)
    : list warning :=
  match cf_load artifact with
  | Json data =>
      match gemara_field data "layer", match_policy_url url with
      | Some layer, Some expected =>
          let found :=
            default (JStr EmptyString) (gemara_field data "policy-id") in
          if eq_str layer "Layer 3" && negb (eq_str found expected)
          then [PolicyIdMismatch (cf_path artifact) expected found]
          else []
      | _, _ => []
      end
  | _ => []
  end.

(** The warnings that one URL contributes: the policy-id warning of its
    artifact when that artifact is structurally valid, none otherwise. *)
Definition url_warnings (controls_dir : list control_file) (url : string)
    : list warning :=
  match find_control_file url controls_dir with
  | Some artifact =>
      if fst (validate_control_file artifact url)
      then policy_warnings artifact url
      else []
  | None => []
  end.

End Spec.
Import Spec.

(** ** Example inputs *)

Module Examples.

(** Two modifications with one target id that matches no requirement of
    the base control [CCC.C01]. *)
Definition twice_targeted : list AssessmentMod :=
  [ {| am_target_id := Some "CCC.C01.TR02";
       am_text := Some "first"; am_applicability := None |};
    {| am_target_id := Some "CCC.C01.TR02";
       am_text := Some "second"; am_applicability := None |} ].

Definition plain_control_mod : ControlMod :=
  {| cm_target_id := Some "CCC.C01"; cm_title := None; cm_objective := None |}.

(** What the resolver returns for the placeholder policy of [main]. *)
Definition placeholder_resolved (policy : string) : ResolvedRequirement :=
  {| requirement_id := Some "CCC.C01.TR01";
     control_id := Some "CCC.C01";
     catalog_id := Some "FINOS-CCC";
     policy_id := policy;
     text := "All HTTPS communications MUST use TLS 1.3 or higher";
     applicability := ["default"];
     is_modified := true;
     base_requirement_id := Some "CCC.C01.TR01";
     gemara_url :=
       "gemara://policies/" +:+ policy
         +:+ "/controls/CCC.C01/requirements/CCC.C01.TR01";
     base_requirement_url :=
       "gemara://controls/FINOS-CCC/CCC.C01/requirements/CCC.C01.TR01";
     control_title := Some "Enhanced Encryption";
     control_objective := "Enhanced encryption for cloud infrastructure" |}.

(** A control reference with two control modifications and one
    assessment-requirement modification, whose target id is a requirement
    of neither base control. *)
Definition two_controls : ControlRef :=
  {| reference_id := Some "FINOS-CCC";
     control_modifications :=
       [ {| cm_target_id := Some "CCC.C01"; cm_title := None;
            cm_objective := None |};
         {| cm_target_id := Some "CCC.C02"; cm_title := None;
            cm_objective := None |} ];
     assessment_requirement_modifications :=
       [ {| am_target_id := Some "CCC.X.TR09"; am_text := Some "new";
            am_applicability := None |} ] |}.

(** A policy whose only assessment-requirement modification targets the
    base requirement and overrides nothing. *)
Definition idle_override : Policy :=
  {| metadata_id := "p";
     control_references :=
       [ {| reference_id := Some "FINOS-CCC";
            control_modifications := [plain_control_mod];
            assessment_requirement_modifications :=
              [ {| am_target_id := Some "CCC.C01.TR01"; am_text := None;
                   am_applicability := None |} ] |} ] |}.

(** A policy with an assessment-requirement modification that has no
    target id. *)
Definition untargeted : Policy :=
  {| metadata_id := "p";
     control_references :=
       [ {| reference_id := Some "FINOS-CCC";
            control_modifications := [plain_control_mod];
            assessment_requirement_modifications :=
              [ {| am_target_id := None; am_text := Some "stray";
                   am_applicability := None |} ] |} ] |}.

(** What the resolver returns for a policy [p] made of [two_controls]. *)
Definition two_controls_resolved : list ResolvedRequirement :=
  [ {| requirement_id := Some "CCC.C01.TR01"; control_id := Some "CCC.C01";
         catalog_id := Some "FINOS-CCC"; policy_id := "p";
         text := "Base assessment requirement text";
         applicability := ["default"]; is_modified := false;
         base_requirement_id := Some "CCC.C01.TR01";
         gemara_url :=
           "gemara://policies/p/controls/CCC.C01/requirements/CCC.C01.TR01";
         base_requirement_url :=
           "gemara://controls/FINOS-CCC/CCC.C01/requirements/CCC.C01.TR01";
         control_title := Some "Base Control CCC.C01";
         control_objective := "Base control objective for CCC.C01" |};
      {| requirement_id := Some "CCC.X.TR09"; control_id := Some "CCC.C01";
         catalog_id := Some "FINOS-CCC"; policy_id := "p";
         text := "new"; applicability := []; is_modified := true;
         base_requirement_id := Some "CCC.C01.TR09";
         gemara_url :=
           "gemara://policies/p/controls/CCC.C01/requirements/CCC.X.TR09";
         base_requirement_url :=
           "gemara://controls/FINOS-CCC/CCC.C01/requirements/CCC.X.TR09";
         control_title := Some "Base Control CCC.C01";
         control_objective := "Base control objective for CCC.C01" |};
      {| requirement_id := Some "CCC.C02.TR01"; control_id := Some "CCC.C02";
         catalog_id := Some "FINOS-CCC"; policy_id := "p";
         text := "Base assessment requirement text";
         applicability := ["default"]; is_modified := false;
         base_requirement_id := Some "CCC.C02.TR01";
         gemara_url :=
           "gemara://policies/p/controls/CCC.C02/requirements/CCC.C02.TR01";
         base_requirement_url :=
           "gemara://controls/FINOS-CCC/CCC.C02/requirements/CCC.C02.TR01";
         control_title := Some "Base Control CCC.C02";
         control_objective := "Base control objective for CCC.C02" |};
      {| requirement_id := Some "CCC.X.TR09"; control_id := Some "CCC.C02";
         catalog_id := Some "FINOS-CCC"; policy_id := "p";
         text := "new"; applicability := []; is_modified := true;
         base_requirement_id := Some "CCC.C02.TR09";
         gemara_url :=
           "gemara://policies/p/controls/CCC.C02/requirements/CCC.X.TR09";
         base_requirement_url :=
           "gemara://controls/FINOS-CCC/CCC.C02/requirements/CCC.X.TR09";
         control_title := Some "Base Control CCC.C02";
         control_objective := "Base control objective for CCC.C02" |} ].


(** A Layer 3 artifact as [generate_control_files] writes it, with a
    policy id other than the one of its URL. *)
Definition layer3_url : string :=
  "gemara://policies/p/controls/CCC.C01/requirements/CCC.C01.TR01".

Definition layer3_artifact : json :=
  JObj (<["$id" := JStr layer3_url]>
        (<["control-id" := JStr "CCC.C01.TR01"]>
         (<["metadata" :=
              JObj (<["gemara" :=
                        JObj (<["layer" := JStr "Layer 3"]>
                              (<["policy-id" := JStr "other"]>
                               (<["requirement-id" := JStr "CCC.C01.TR01"]>
                                (<["source" := JObj ∅]>
                                 (<["base-requirement" := JObj ∅]>
                                  (<["applicability" := JArr []]> ∅))))))]> ∅)]>
          ∅))).

(** An artifact without a layer and without any layer-specific field. *)
Definition plain_url : string :=
  "gemara://controls/FINOS-CCC/CCC.C01/requirements/CCC.C01.TR01".

Definition plain_artifact : json :=
  JObj (<["$id" := JStr plain_url]>
        (<["control-id" := JStr "CCC.C01.TR01"]>
         (<["metadata" :=
              JObj (<["gemara" :=
                        JObj (<["requirement-id" := JStr "CCC.C01.TR01"]>
                              (<["source" := JObj ∅]>
                               (<["applicability" := JArr []]> ∅)))]> ∅)]>
          ∅))).

Definition layer3_file : control_file :=
  {| cf_path := "controls/ccc-c01-tr01.requirement.json";
     cf_load := Json layer3_artifact |}.

Definition plain_file : control_file :=
  {| cf_path := "controls/base/ccc-c01-tr01.requirement.json";
     cf_load := Json plain_artifact |}.

Definition controls : list control_file :=
  [ {| cf_path := "controls/broken.requirement.json";
       cf_load := JSONDecodeError |};
    layer3_file; plain_file ].

(** [s] between quotes. *)
Definition quoted (s : string) : string :=
  String quote (s +:+ String quote EmptyString).

(** An architecture directory: one unreadable file and one document that
    refers to three URLs, the last of which has no artifact. *)
Definition architecture : list arch_file :=
  [ {| af_path := "architecture/unreadable.arch.json"; af_read_text := None |};
    {| af_path := "architecture/api.arch.json";
       af_read_text :=
         Some ("[" +:+ quoted layer3_url +:+ ", " +:+ quoted plain_url
               +:+ ", " +:+ quoted "gemara://policies/p/controls/missing"
               +:+ ", " +:+ quoted plain_url +:+ "]") |} ].

(** A document with one quoted text that holds two URLs, the second
    inside what the pattern matches from the first. *)
Definition nested : list arch_file :=
  [ {| af_path := "architecture/nested.arch.json";
       af_read_text := Some (quoted "gemara://a gemara://b") |} ].

End Examples.
Import Examples.

(** ** The generators ([gemara-resolve-example.py]) *)

Module Generators.

(** [s.replace(old, new)] for strings of one character. *)
Fixpoint replace (old new : ascii) (s : string) : string :=
  match s with
  | EmptyString => EmptyString
  | String c s' =>
      String (if bool_decide (c = old) then new else c) (replace old new s')
  end.

(** [str.lower] on one ASCII character. *)
Definition lower_char (c : ascii) : ascii :=
  let n := nat_of_ascii c in
  if (65 <=? n)%nat && (n <=? 90)%nat then ascii_of_nat (n + 32) else c.

(** [str.lower] on a string of ASCII characters. *)
Fixpoint lower_ascii (s : string) : string :=
  match s with
  | EmptyString => EmptyString
  | String c s' => String (lower_char c) (lower_ascii s')
  end.

(** The JSON value of a field that holds a string or [None]. *)
Definition json_of (x : option string) : json :=
  match x with
  | Some s => JStr s
  | None => JNull
  end.

(** The dictionary [control_file] that [generate_control_files] builds for
    one resolved requirement; it is also what [json.load] reads back from
    the text that [json.dumps] wrote. *)
Definition control_file_of (req : ResolvedRequirement) : json :=
  JObj (list_to_map
    [ ("$schema",
       JStr "https://calm.finos.org/release/1.1/meta/control-requirement.json");
      ("$id", JStr (gemara_url req));
      ("control-id", json_of (requirement_id req));
      ("name",
       JStr (py_str (control_title req) +:+ " - "
             +:+ py_str (requirement_id req)));
      ("description", JStr (text req));
      ("metadata",
       JObj (list_to_map
         [ ("gemara",
            JObj (list_to_map
              [ ("layer", JStr "Layer 3");
                ("policy-id", JStr (policy_id req));
                ("control-id", json_of (control_id req));
                ("requirement-id", json_of (requirement_id req));
                ("source",
                 JObj (list_to_map
                   [ ("type", JStr "policy");
                     ("policy-id", JStr (policy_id req));
                     ("control-id", json_of (control_id req)) ]));
                ("base-requirement",
                 JObj (list_to_map
                   [ ("reference-url", JStr (base_requirement_url req));
                     ("catalog-id", json_of (catalog_id req)) ]));
                ("applicability",
                 JArr (List.map JStr (applicability req))) ])) ])) ]).

Section WithEnvironment.

(** [str.lower]: the case mapping of Unicode, of which nothing is assumed. *)
Variable lower : string -> string.

(** [req["requirement-id"].replace(".", "-").lower() + ".requirement.json"] *)
Definition filename (requirement_id : option string) : result string :=
  match requirement_id with
  | Some s => Ok (lower (replace "." "-" s) +:+ ".requirement.json")
  | None =>
      Raise (AttributeError "'NoneType' object has no attribute 'replace'")
  end.

(** [(output_dir / filename).write_text(json.dumps(control_file, indent=2))],
    an operation of the file system: given the file name, the document and
    the files of the directory, it yields the files of the directory after
    the call and the exception that the call raised, if any.  Whether a
    write succeeds is not decided by the script (the name may lead into a
    directory that does not exist, be too long, or be refused): nothing is
    assumed of it here. *)
Variable write_text :
  string -> json -> gmap string json -> gmap string json * option exn.

(** [generate_control_files], on the directory that [mkdir] has made sure
    exists: [output_dir] maps the name of each file of the directory to the
    document it holds.  The exception of taking the file name or of the
    write ends the loop and leaves the directory as it then is. *)
Fixpoint generate_control_files
    (resolved_requirements : list ResolvedRequirement)
    (output_dir : gmap string json) : gmap string json * option exn :=
  match resolved_requirements with
  | [] => (output_dir, None)
  | req :: rest =>
      let control_file := control_file_of req in
      match filename (requirement_id req) with
      | Ok name =>
          match write_text name control_file output_dir with
          | (output_dir, None) => generate_control_files rest output_dir
          | (output_dir, Some e) => (output_dir, Some e)
          end
      | Raise e => (output_dir, Some e)
      end
  end.

(** Body of the loop of [generate_mapping]. *)
Definition add_mapping (control_files_dir : string)
    (base_requirements_dir : option string)
    (mapping : gmap string string) (req : ResolvedRequirement)
    : result (gmap string string) :=
  let policy_url := gemara_url req in
  name ← filename (requirement_id req);
  let policy_path := "../" +:+ control_files_dir +:+ "/" +:+ name in
  let mapping := <[policy_url := policy_path]> mapping in
  match base_requirements_dir with
  | Some dir =>
      let base_url := base_requirement_url req in
      let base_path := "../" +:+ dir +:+ "/" +:+ name in
      Ok (<[base_url := base_path]> mapping)
  | None => Ok mapping
  end.

(** [generate_mapping]: the mapping written to [output_path]; nothing is
    written when the loop raises.  A directory is the text of its path. *)
Definition generate_mapping
    (resolved_requirements : list ResolvedRequirement)
    (control_files_dir : string) (base_requirements_dir : option string)
    : result (gmap string string) :=
  for_each (add_mapping control_files_dir base_requirements_dir)
           resolved_requirements ∅.

End WithEnvironment.

(** The files of a directory as the validator lists them, in the order of
    [names]. *)
Definition listing (dir : gmap string json) (names : list string)
    : list control_file :=
  omap (fun name =>
          match dir !! name with
          | Some data => Some {| cf_path := name; cf_load := Json data |}
          | None => None
          end) names.

End Generators.
Import Generators.

(** ** Further properties, stated on the code *)

Module Extra.

(** The document of [cf] is an object whose [$id] is [url]. *)
Definition has_identity (cf : control_file) (url : string) : Prop :=
  exists o, cf_load cf = Json (JObj o) /\ artifact_id (JObj o) = JStr url.

(** The file loads as a JSON object. *)
Definition loads_object (cf : control_file) : bool :=
  match cf_load cf with
  | Json (JObj _) => true
  | _ => false
  end.

(** The URL has an artifact in [controls_dir] that is structurally valid. *)
Definition resolves (controls_dir : list control_file) (url : string) : Prop :=
  exists cf,
    find_control_file url controls_dir = Some cf
    /\ validate_control_file cf url = (true, None).

(** The same, as the loop of [main] tests it. *)
Definition resolvesb (controls_dir : list control_file) (url : string) : bool :=
  match find_control_file url controls_dir with
  | Some cf => fst (validate_control_file cf url)
  | None => false
  end.

(** A text that some file of the directory yields when read. *)
Definition readable (architecture_dir : list arch_file) (content : string)
    : Prop :=
  exists af, In af architecture_dir /\ af_read_text af = Some content.

(** The requirement id is a string and both URLs are built from the ids of
    the record itself. *)
Definition well_formed (r : ResolvedRequirement) : Prop :=
  exists rid,
    requirement_id r = Some rid
    /\ gemara_url r = canonicalUrl (policy_id r) (py_str (control_id r)) rid
    /\ base_requirement_url r
       = baseUrl (py_str (catalog_id r)) (py_str (control_id r)) rid.

(** Some control modification is resolved while a modification of the same
    control reference has no target id. *)
Definition untargeted_modification (policy : Policy) : Prop :=
  exists cr am,
    In cr (control_references policy)
    /\ control_modifications cr <> []
    /\ In am (assessment_requirement_modifications cr)
    /\ am_target_id am = None.

(** The name of the file of a requirement that has an id. *)
Definition name_of (lower : string -> string) (r : ResolvedRequirement)
    : string :=
  lower (replace "." "-" (default EmptyString (requirement_id r)))
    +:+ ".requirement.json".

(** [r] is in [rs], and no requirement after it has the same [key]. *)
Definition last_with {K : Type} (key : ResolvedRequirement -> K)
    (rs : list ResolvedRequirement) (r : ResolvedRequirement) : Prop :=
  exists before after,
    rs = before ++ r :: after /\ forall r', In r' after -> key r' <> key r.

(** A control-level field after the merge: the override when it is present
    and not empty, else the value of the base control. *)
Definition override (over base : option string) : option string :=
  match over with
  | Some t => if bool_decide (t = EmptyString) then base else Some t
  | None => base
  end.

(** What the resolver returns has one part per control reference and one
    segment per control modification, and [P] holds of every segment, given
    the control reference, the control modification and its base control. *)
Definition per_segment
    (get_base_control :
       option string -> option string -> Control AssessmentRequirement)
    (P : ControlRef -> ControlMod -> Control AssessmentRequirement ->
         list ResolvedRequirement -> Prop)
    (policy : Policy) (out : list ResolvedRequirement) : Prop :=
  exists parts,
    out = concat parts
    /\ Forall2
         (fun cr part =>
            exists segs,
              part = concat segs
              /\ Forall2
                   (fun cm seg =>
                      P cr cm
                        (get_base_control (reference_id cr) (cm_target_id cm))
                        seg)
                   (control_modifications cr) segs)
         (control_references policy) parts.

(** The paths [f"../{control_files_dir}/{filename}"] and
    [f"../{base_requirements_dir}/{filename}"] of a requirement with an id. *)
Definition policy_path (lower : string -> string) (control_files_dir : string)
    (r : ResolvedRequirement) : string :=
  "../" +:+ control_files_dir +:+ "/" +:+ name_of lower r.

Definition base_path (lower : string -> string) (base_requirements_dir : string)
    (r : ResolvedRequirement) : string :=
  "../" +:+ base_requirements_dir +:+ "/" +:+ name_of lower r.

(** The assignments [mapping[url] = path] of [generate_mapping], in the
    order in which the loop makes them. *)
Definition mapping_writes (lower : string -> string)
    (control_files_dir : string) (base_requirements_dir : option string)
    (rs : list ResolvedRequirement) : list (string * string) :=
  List.flat_map
    (fun r =>
       (gemara_url r, policy_path lower control_files_dir r)
       :: match base_requirements_dir with
          | Some dir => [(base_requirement_url r, base_path lower dir r)]
          | None => []
          end)
    rs.

(** The file system takes [name] for a file of the directory itself, and
    writing a document under that name succeeds and replaces the file. *)
Definition accepts
    (write_text :
       string -> json -> gmap string json -> gmap string json * option exn)
    (name : string) : Prop :=
  mentions "/" name = false
  /\ forall data dir, write_text name data dir = (<[name := data]> dir, None).

(** The files that [generate_control_files] leaves in an empty directory. *)
Definition generated (lower : string -> string)
    (write_text :
       string -> json -> gmap string json -> gmap string json * option exn)
    (rs : list ResolvedRequirement) : gmap string json :=
  fst (generate_control_files lower write_text rs ∅).

End Extra.
Import Extra.

(** ** Further example inputs *)

Module MoreExamples.

(** A control reference whose control modification overrides the title
    with the empty string and the objective with a text. *)
Definition retitled : ControlRef :=
  {| reference_id := Some "FINOS-CCC";
     control_modifications :=
       [ {| cm_target_id := Some "CCC.C01"; cm_title := Some EmptyString;
            cm_objective := Some "Stricter" |} ];
     assessment_requirement_modifications := [] |}.


Definition retitled_resolved : ResolvedRequirement :=
  {| requirement_id := Some "CCC.C01.TR01"; control_id := Some "CCC.C01";
     catalog_id := Some "FINOS-CCC"; policy_id := "p";
     text := "Base assessment requirement text";
     applicability := ["default"]; is_modified := false;
     base_requirement_id := Some "CCC.C01.TR01";
     gemara_url :=
       "gemara://policies/p/controls/CCC.C01/requirements/CCC.C01.TR01";
     base_requirement_url :=
       "gemara://controls/FINOS-CCC/CCC.C01/requirements/CCC.C01.TR01";
     control_title := Some "Base Control CCC.C01";
     control_objective := "Stricter" |}.

(** A resolved requirement without an id, as no run of the resolver
    returns. *)
Definition without_id : ResolvedRequirement :=
  {| requirement_id := None; control_id := Some "CCC.C01";
     catalog_id := Some "FINOS-CCC"; policy_id := "p";
     text := "stray"; applicability := []; is_modified := false;
     base_requirement_id := None;
     gemara_url := "gemara://policies/p/controls/CCC.C01/requirements/None";
     base_requirement_url :=
       "gemara://controls/FINOS-CCC/CCC.C01/requirements/None";
     control_title := None; control_objective := EmptyString |}.

(** A Layer 3 artifact without a policy id. *)
Definition layer3_without_policy : json :=
  JObj (<["$id" := JStr layer3_url]>
        (<["control-id" := JStr "CCC.C01.TR01"]>
         (<["metadata" :=
              JObj (<["gemara" :=
                        JObj (<["layer" := JStr "Layer 3"]>
                              (<["requirement-id" := JStr "CCC.C01.TR01"]>
                               (<["source" := JObj ∅]>
                                (<["applicability" := JArr []]> ∅))))]> ∅)]>
          ∅))).

(** An artifact with another identity than [layer3_url]. *)
Definition stranger : control_file :=
  {| cf_path := "controls/stranger.requirement.json";
     cf_load := Json plain_artifact |}.

(** A file system in which the output directory has no subdirectory and
    is reached by a relative path: a file name with a slash leads into a
    directory that does not exist, and the write raises FileNotFoundError,
    an OSError, without changing the directory. *)
Definition flat_write (name : string) (data : json) (dir : gmap string json)
    : gmap string json * option exn :=
  if mentions "/" name
  then (dir, Some (OSError "[Errno 2] No such file or directory"))
  else (<[name := data]> dir, None).

(** A requirement as the resolver returns it for the control id
    [b/controls/c]: its id has a slash. *)
Definition slash_id : ResolvedRequirement :=
  {| requirement_id := Some "b/controls/c.TR01";
     control_id := Some "b/controls/c";
     catalog_id := Some "FINOS-CCC"; policy_id := "p";
     text := "Base assessment requirement text";
     applicability := ["default"]; is_modified := false;
     base_requirement_id := Some "b/controls/c.TR01";
     gemara_url :=
       "gemara://policies/p/controls/b/controls/c/requirements/b/controls/c.TR01";
     base_requirement_url :=
       "gemara://controls/FINOS-CCC/b/controls/c/requirements/b/controls/c.TR01";
     control_title := Some "Base Control b/controls/c";
     control_objective := "Base control objective for b/controls/c" |}.

End MoreExamples.
Import MoreExamples.

(** ** Tactics *)

(** Case analysis on every test of a validation run recorded in [H]. *)
Ltac crack H :=
  repeat (simpl in H;
          match type of H with
          | context [default _ ?x] => destruct x eqn:?
          | context [if ?b then _ else _] => destruct b eqn:?
          | context [match ?x with _ => _ end] => destruct x eqn:?
          | context [get ?x _ _] => destruct x
          | context [contains ?x _] => destruct x
          end);
  simpl in H.

(** ** Loops that append *)

Section ForEach.
Context {S A : Type}.

Lemma for_each_appends (body : list S -> A -> result (list S)) l :
  appends body ->
  forall acc, for_each body l acc = (seg ← for_each body l []; Ok (acc ++ seg)).
Proof.
  intros Hb. induction l as [|x l IH]; intros acc; simpl.
  - unfold mbind, result_bind. by rewrite app_nil_r.
  - rewrite (Hb acc x). destruct (body [] x) as [seg|e]; simpl; [|done].
    rewrite (IH (acc ++ seg)), (IH seg).
    destruct (for_each body l []) as [segs|e]; simpl; [|done].
    by rewrite app_assoc.
Qed.

Lemma for_each_segments (body : list S -> A -> result (list S)) l out :
  appends body ->
  for_each body l [] = Ok out ->
  exists segs, out = concat segs
               /\ Forall2 (fun x seg => body [] x = Ok seg) l segs.
Proof.
  intros Hb. revert out. induction l as [|x l IH]; intros out; simpl.
  - intros [= <-]. exists []. split; [done|constructor].
  - destruct (body [] x) as [seg|e] eqn:Hx; simpl; [|done].
    rewrite (for_each_appends body l Hb seg).
    destruct (for_each body l []) as [rest|e] eqn:Hl; simpl; [|done].
    intros [= <-]. destruct (IH rest eq_refl) as (segs & -> & HF).
    exists (seg :: segs). split; [done|]. by constructor.
Qed.

End ForEach.

(** ** The merge of [_apply_modifications] *)

Section Merge.

Lemma existsb_bool_decide {A B : Type} `{EqDecision B} (f : A -> B) (y : B) l :
  existsb (fun x => bool_decide (f x = y)) l = true <-> In y (List.map f l).
Proof.
  rewrite existsb_exists, in_map_iff. split.
  - intros (x & Hx & Hd). apply bool_decide_eq_true in Hd. eauto.
  - intros (x & Hd & Hx). exists x. split; [done|]. by apply bool_decide_eq_true.
Qed.

Lemma unmatched_spec base am :
  unmatched base am = true
  <-> ~ In (am_target_id am) (List.map (fun b => Some (ar_id b)) base).
Proof.
  unfold unmatched. rewrite negb_true_iff, <- not_true_iff_false.
  rewrite existsb_exists, in_map_iff. split.
  - intros Hn (b & Hb & Hin). apply Hn. exists b. split; [done|].
    by apply bool_decide_eq_true.
  - intros Hn (b & Hin & Hb). apply Hn. exists b. split; [|done].
    by apply bool_decide_eq_true in Hb.
Qed.

Lemma merge_base_overridden assessment_mods b :
  merge_base assessment_mods b = overridden assessment_mods b.
Proof.
  unfold merge_base, overridden, modification_for.
  destruct (List.find _ assessment_mods) as [am|] eqn:Hfind; [|done].
  apply find_some in Hfind as [_ Ht]. apply bool_decide_eq_true in Ht.
  rewrite Ht. simpl. f_equal.
  by destruct (am_applicability am).
Qed.

Lemma overridden_id assessment_mods b :
  req_id (overridden assessment_mods b) = Some (ar_id b).
Proof.
  unfold overridden. by destruct (modification_for assessment_mods (ar_id b)).
Qed.

Lemma new_requirement_eq am :
  {| req_id := am_target_id am;
     req_text := default EmptyString (am_text am);
     req_applicability := Some (default [] (am_applicability am)) |}
  = new_requirement am.
Proof.
  unfold new_requirement. f_equal.
  by destruct (am_applicability am).
Qed.

Lemma add_new_fresh acc am :
  ~ In (am_target_id am) (List.map req_id acc) ->
  add_new acc am = acc ++ [new_requirement am].
Proof.
  intros Hn. unfold add_new. rewrite new_requirement_eq.
  destruct (existsb _ acc) eqn:He; [|done].
  by apply existsb_bool_decide in He.
Qed.

Lemma add_new_present acc am :
  In (am_target_id am) (List.map req_id acc) -> add_new acc am = acc.
Proof.
  intros Hin. unfold add_new.
  apply (existsb_bool_decide req_id) in Hin. by rewrite Hin.
Qed.

(** The second loop, from any point of its run: [acc] holds the ids of the
    base requirements and the target ids of the modifications seen. *)
Lemma fold_add_new base rest :
  forall earlier acc,
    (forall x, In x (List.map req_id acc)
               <-> In x (List.map (fun b => Some (ar_id b)) base)
                   \/ In x (List.map am_target_id earlier)) ->
    fold_left add_new rest acc
    = acc ++ List.map new_requirement (first_unmatched earlier base rest).
Proof.
  induction rest as [|am rest IH]; intros earlier acc Hacc; simpl.
  - by rewrite app_nil_r.
  - destruct (in_dec (fun a b => decide (a = b)) (am_target_id am)
                     (List.map req_id acc)) as [Hin|Hn].
    + rewrite (add_new_present _ _ Hin).
      rewrite (IH (earlier ++ [am]) acc).
      * f_equal. f_equal.
        destruct (unmatched base am) eqn:Hu; [|done].
        apply unmatched_spec in Hu. apply Hacc in Hin as [Hb|He]; [done|].
        apply (existsb_bool_decide am_target_id) in He. by rewrite He.
      * intros x. rewrite Hacc, List.map_app, in_app_iff. simpl.
        split; [tauto|]. intros [Hb|[He|[<-|[]]]]; [tauto|tauto|].
        by apply Hacc.
    + rewrite (add_new_fresh _ _ Hn).
      rewrite (IH (earlier ++ [am]) (acc ++ [new_requirement am])).
      * rewrite <- app_assoc. f_equal.
        assert (unmatched base am = true) as ->.
        { apply unmatched_spec. intros Hb. apply Hn, Hacc. by left. }
        assert (existsb (fun e => bool_decide (am_target_id e = am_target_id am))
                        earlier = false) as ->; [|done].
        apply not_true_iff_false. intros He.
        apply existsb_bool_decide in He. apply Hn, Hacc. by right.
      * intros x. rewrite !List.map_app, !in_app_iff, Hacc. simpl. tauto.
Qed.

Lemma apply_modifications_merge base_control control_mod assessment_mods :
  c_assessment_requirements
    (_apply_modifications base_control control_mod assessment_mods)
  = merge (c_assessment_requirements base_control) assessment_mods.
Proof.
  unfold _apply_modifications, merge. simpl.
  rewrite (fold_add_new (c_assessment_requirements base_control) _ []).
  - f_equal. apply map_ext. intros b. apply merge_base_overridden.
  - intros x. rewrite List.map_map.
    rewrite (map_ext _ (fun b => Some (ar_id b))).
    + simpl. tauto.
    + intros b. by rewrite merge_base_overridden, overridden_id.
Qed.

End Merge.

(** ** New requirements: one per unmatched target id *)

Section FirstUnmatched.

Lemma first_unmatched_In base rest :
  forall earlier am,
    In am (first_unmatched earlier base rest) ->
    In am rest /\ unmatched base am = true
    /\ ~ In (am_target_id am) (List.map am_target_id earlier).
Proof.
  induction rest as [|a rest IH]; intros earlier am; simpl; [done|].
  rewrite in_app_iff. intros [Hhd|Htl].
  - destruct (unmatched base a) eqn:Hu; simpl in Hhd; [|done].
    destruct (existsb _ earlier) eqn:He; simpl in Hhd; [done|].
    destruct Hhd as [<-|[]]. split; [by left|]. split; [done|].
    intros Hin. apply (existsb_bool_decide am_target_id) in Hin. congruence.
  - apply IH in Htl as (Hin & Hu & Hn). split; [by right|]. split; [done|].
    intros He. apply Hn. rewrite List.map_app, in_app_iff. by left.
Qed.

Lemma first_unmatched_NoDup base rest :
  forall earlier,
    NoDup (List.map am_target_id (first_unmatched earlier base rest)).
Proof.
  induction rest as [|a rest IH]; intros earlier; simpl; [constructor|].
  destruct (unmatched base a && negb (existsb _ earlier)); simpl; [|apply IH].
  apply NoDup_cons_2; [|apply IH].
  rewrite list_elem_of_In, in_map_iff. intros (am & Heq & Hin).
  apply first_unmatched_In in Hin as (_ & _ & Hn). apply Hn.
  rewrite List.map_app, in_app_iff, Heq. right. by left.
Qed.

Lemma first_unmatched_complete base rest :
  forall earlier am,
    In am rest -> unmatched base am = true ->
    ~ In (am_target_id am) (List.map am_target_id earlier) ->
    In (am_target_id am)
       (List.map am_target_id (first_unmatched earlier base rest)).
Proof.
  induction rest as [|a rest IH]; intros earlier am; simpl; [done|].
  intros Hin Hu Hn. rewrite List.map_app, in_app_iff.
  destruct (decide (am_target_id a = am_target_id am)) as [Heq|Hne].
  - left.
    assert (unmatched base a = true) as ->.
    { apply unmatched_spec. rewrite Heq. by apply unmatched_spec. }
    assert (existsb (fun e => bool_decide (am_target_id e = am_target_id a))
                    earlier = false) as ->.
    { apply not_true_iff_false. intros He.
      apply existsb_bool_decide in He. by rewrite Heq in He. }
    simpl. by left.
  - right. destruct Hin as [->|Hin]; [done|].
    apply IH; [done..|]. rewrite List.map_app, in_app_iff. simpl.
    intros [?|[?|[]]]; done.
Qed.

(** Where no two unmatched modifications share a target id, every
    unmatched modification is appended. *)
Lemma first_unmatched_filter base rest :
  forall earlier,
    NoDup (List.map am_target_id (List.filter (unmatched base) rest)) ->
    (forall e am, In e earlier -> In am (List.filter (unmatched base) rest) ->
                  am_target_id e <> am_target_id am) ->
    first_unmatched earlier base rest = List.filter (unmatched base) rest.
Proof.
  induction rest as [|a rest IH]; intros earlier Hnd Hearlier; simpl; [done|].
  simpl in Hnd, Hearlier. destruct (unmatched base a) eqn:Hu; simpl.
  - assert (existsb (fun e => bool_decide (am_target_id e = am_target_id a))
                    earlier = false) as ->.
    { apply not_true_iff_false. intros He. apply existsb_exists in He.
      destruct He as (e & Hin & Heq). apply bool_decide_eq_true in Heq.
      apply (Hearlier e a Hin); [by left|done]. }
    simpl in *. apply NoDup_cons in Hnd as [Hhd Hnd]. f_equal. apply IH; [done|].
    intros e am [He|[<-|[]]]%in_app_iff Ham.
    + apply Hearlier; [done|by right].
    + intros Heq. apply Hhd. rewrite list_elem_of_In, Heq. by apply in_map.
  - apply IH; [done|]. intros e am [He|[<-|[]]]%in_app_iff Ham.
    + by apply Hearlier.
    + intros Heq. apply filter_In in Ham as [_ Ham].
      unfold unmatched in Hu, Ham. rewrite Heq in Hu. congruence.
Qed.

Lemma merge_ids base assessment_mods :
  List.map req_id (merge base assessment_mods)
  = List.map (fun b => Some (ar_id b)) base
      ++ List.map am_target_id (first_unmatched [] base assessment_mods).
Proof.
  unfold merge. rewrite List.map_app, !List.map_map. f_equal.
  apply map_ext. intros b. apply overridden_id.
Qed.

Lemma merge_ids_NoDup base assessment_mods :
  NoDup (List.map ar_id base) ->
  NoDup (List.map req_id (merge base assessment_mods)).
Proof.
  intros Hb. rewrite merge_ids. apply NoDup_app. split; [|split].
  - rewrite <- (List.map_map ar_id Some).
    apply (NoDup_fmap_2 Some (List.map ar_id base) Hb).
  - intros x. rewrite !list_elem_of_In. intros Hx Hin.
    apply in_map_iff in Hin as (am & <- & Ham).
    apply first_unmatched_In in Ham as (_ & Hu & _).
    by apply unmatched_spec in Hu.
  - apply first_unmatched_NoDup.
Qed.


Lemma filter_length_count {A B : Type} `{EqDecision B} (f : A -> B) y l :
  List.length (List.filter (fun x => bool_decide (f x = y)) l)
  = count_occ (fun a b => decide (a = b)) (List.map f l) y.
Proof.
  induction l as [|x l IH]; simpl; [done|].
  destruct (decide (f x = y)) as [Heq|Hne].
  - rewrite bool_decide_eq_true_2 by done. simpl. by rewrite IH.
  - rewrite bool_decide_eq_false_2 by done. done.
Qed.

End FirstUnmatched.

(** ** Properties of the merge *)

Section MergeProperties.

Lemma apply_modifications_ids_NoDup base_control control_mod assessment_mods :
  NoDup (List.map ar_id (c_assessment_requirements base_control)) ->
  NoDup (requirement_ids
           (_apply_modifications base_control control_mod assessment_mods)).
Proof.
  intros Hb. unfold requirement_ids. rewrite apply_modifications_merge.
  by apply merge_ids_NoDup.
Qed.

Lemma get_base_control_ids_NoDup catalog_id control_id :
  NoDup (List.map ar_id
           (c_assessment_requirements (_get_base_control catalog_id control_id))).
Proof. simpl. apply NoDup_singleton. Qed.

End MergeProperties.

(** C1, as stated, fails: of two modifications with the same target id that
    matches no base requirement, only the first is appended as a new
    requirement, where the statement appends both. *)
Lemma merge_as_stated_counterexample :
  c_assessment_requirements
    (_apply_modifications (_get_base_control (Some "FINOS-CCC") (Some "CCC.C01"))
       plain_control_mod twice_targeted)
  <> merge_as_stated
       (c_assessment_requirements
          (_get_base_control (Some "FINOS-CCC") (Some "CCC.C01")))
       twice_targeted.
Proof. vm_compute. intros [=]. Qed.

(** C1 (amended): the requirements of the control that [_apply_modifications]
    returns are the base requirements in base order, each with text and
    applicability replaced by the override values of the first modification
    targeting its id when present (and its id kept), followed by one new
    requirement for each modification whose target id matches no base
    requirement and is not the target id of an earlier modification, in
    modification-list order, with missing text and applicability empty.
    Where no two unmatched modifications share a target id, this is the
    merge as stated: every unmatched modification is appended. *)
Theorem apply_modifications_requirements :
  forall base_control control_mod assessment_mods,
    let base := c_assessment_requirements base_control in
    let resolved :=
      c_assessment_requirements
        (_apply_modifications base_control control_mod assessment_mods) in
    resolved = merge base assessment_mods
    /\ (NoDup (List.map am_target_id (List.filter (unmatched base) assessment_mods)) ->
        resolved = merge_as_stated base assessment_mods).
Proof.
  intros base_control control_mod assessment_mods base resolved.
  subst base resolved. split; [apply apply_modifications_merge|].
  intros Hnd. rewrite apply_modifications_merge. unfold merge, merge_as_stated.
  rewrite first_unmatched_filter; [done|done|]. intros e am [].
Qed.

Lemma apply_modifications_requirements_witness :
  c_assessment_requirements
    (_apply_modifications (_get_base_control (Some "FINOS-CCC") (Some "CCC.C01"))
       plain_control_mod (take 1 twice_targeted))
  = merge_as_stated
      (c_assessment_requirements
         (_get_base_control (Some "FINOS-CCC") (Some "CCC.C01")))
      (take 1 twice_targeted).
Proof.
  apply (apply_modifications_requirements
           (_get_base_control (Some "FINOS-CCC") (Some "CCC.C01"))
           plain_control_mod (take 1 twice_targeted)).
  vm_compute. apply NoDup_singleton.
Defined.

(** C4: for every catalog id, control modification and list of assessment
    modifications of a policy, the requirement ids of the resolved control
    that the merge produces from the base control of the catalog are
    pairwise distinct; and for a modification whose target id is the id of a
    base requirement, exactly one resolved requirement carries that id. *)
Theorem resolved_requirement_ids_distinct :
  forall catalog_id control_mod assessment_mods,
    let base_control := _get_base_control catalog_id (cm_target_id control_mod) in
    let resolved := _apply_modifications base_control control_mod assessment_mods in
    NoDup (requirement_ids resolved)
    /\ (forall am b,
          In am assessment_mods ->
          In b (c_assessment_requirements base_control) ->
          am_target_id am = Some (ar_id b) ->
          List.length
            (List.filter (fun r => bool_decide (req_id r = am_target_id am))
                         (c_assessment_requirements resolved)) = 1).
Proof.
  intros catalog_id control_mod assessment_mods base_control resolved.
  assert (NoDup (requirement_ids resolved)) as Hnd.
  { apply apply_modifications_ids_NoDup, get_base_control_ids_NoDup. }
  split; [done|]. intros am b Ham Hb Heq.
  rewrite filter_length_count. apply NoDup_count_occ'.
  - by apply NoDup_ListNoDup.
  - subst resolved. rewrite apply_modifications_merge, merge_ids, in_app_iff.
    left. rewrite Heq. by apply (in_map (fun b => Some (ar_id b))).
Qed.

Lemma resolved_requirement_ids_distinct_witness :
  List.length
    (List.filter
       (fun r => bool_decide (req_id r = Some "CCC.C01.TR01"))
       (c_assessment_requirements
          (_apply_modifications
             (_get_base_control (Some "FINOS-CCC") (Some "CCC.C01"))
             plain_control_mod
             (assessment_requirement_modifications
                {| reference_id := Some "FINOS-CCC";
                   control_modifications := [plain_control_mod];
                   assessment_requirement_modifications :=
                     [ {| am_target_id := Some "CCC.C01.TR01";
                          am_text := Some "override";
                          am_applicability := None |} ] |})))) = 1.
Proof.
  apply (proj2 (resolved_requirement_ids_distinct (Some "FINOS-CCC")
                  plain_control_mod _)
           {| am_target_id := Some "CCC.C01.TR01";
              am_text := Some "override"; am_applicability := None |}
           {| ar_id := "CCC.C01.TR01";
              ar_text := "Base assessment requirement text";
              ar_applicability := Some ["default"] |}).
  - simpl. by left.
  - simpl. by left.
  - reflexivity.
Defined.

(** ** [split] and the part after the last separator *)

Section Split.
Variable sep : ascii.

Lemma split_nonempty s : split sep s <> [].
Proof.
  destruct s as [|c s]; simpl; [done|].
  destruct (bool_decide (c = sep)); [done|]. by destruct (split sep s).
Qed.

Lemma last_item_cons x l : l <> [] -> last_item (x :: l) = last_item l.
Proof. unfold last_item. by destruct l. Qed.

Lemma split_singleton s h :
  split sep s = [h] -> h = s /\ mentions sep s = false.
Proof.
  revert h. induction s as [|c s IH]; intros h; simpl.
  - by intros [= <-].
  - destruct (bool_decide (c = sep)) eqn:Hc.
    + intros [= _ Hs]. by destruct (split_nonempty s).
    + destruct (split sep s) as [|h' t] eqn:Hs; [by destruct (split_nonempty s)|].
      intros [= <- ->]. destruct (IH h' eq_refl) as [-> Hm]. by rewrite Hm.
Qed.

Lemma split_no_sep s : mentions sep s = false -> split sep s = [s].
Proof.
  induction s as [|c s IH]; simpl; [done|].
  destruct (bool_decide (c = sep)); simpl; [done|].
  intros Hm. by rewrite (IH Hm).
Qed.

Lemma mentions_app_sep pre suf : mentions sep (pre +:+ String sep suf) = true.
Proof.
  induction pre as [|c pre IH]; simpl.
  - by rewrite bool_decide_eq_true_2.
  - rewrite IH. apply orb_true_r.
Qed.

(** [s.split(sep)[-1]] is what follows the last separator of [s]. *)
Lemma last_split_after pre suf :
  mentions sep suf = false ->
  last_item (split sep (pre +:+ String sep suf)) = suf.
Proof.
  intros Hsuf. induction pre as [|c pre IH]; simpl.
  - rewrite bool_decide_eq_true_2 by done.
    rewrite last_item_cons by apply split_nonempty.
    by rewrite (split_no_sep _ Hsuf).
  - destruct (bool_decide (c = sep)).
    + by rewrite last_item_cons by apply split_nonempty.
    + destruct (split sep (pre +:+ String sep suf)) as [|h t] eqn:Hs;
        [by destruct (split_nonempty (pre +:+ String sep suf))|].
      destruct t as [|h' t].
      * apply split_singleton in Hs as [_ Hm].
        by rewrite mentions_app_sep in Hm.
      * rewrite last_item_cons by done. by rewrite last_item_cons in IH.
Qed.

(** Without a separator, it is [s] itself. *)
Lemma last_split_whole s :
  mentions sep s = false -> last_item (split sep s) = s.
Proof. intros Hm. by rewrite (split_no_sep _ Hm). Qed.

End Split.

(** ** The resolver's loops *)

Section Resolve.
Variable get_base_control :
  option string -> option string -> Control AssessmentRequirement.

Lemma for_each_returns {S A : Type} (body : S -> A -> result S) l :
  (forall s x, In x l -> exists s', body s x = Ok s') ->
  forall s, exists out, for_each body l s = Ok out.
Proof.
  induction l as [|x l IH]; intros Hb s; simpl; [by eexists|].
  destruct (Hb s x) as [s' ->]; [by left|]. simpl.
  apply IH. intros s0 y Hy. apply Hb. by right.
Qed.

Lemma for_each_collect {A B : Type} (f : A -> result B) l out :
  for_each (fun acc x => r ← f x; Ok (acc ++ [r])) l [] = Ok out ->
  Forall2 (fun x r => f x = Ok r) l out.
Proof.
  intros Hout.
  assert (appends (fun (acc : list B) x => r ← f x; Ok (acc ++ [r]))) as Happ.
  { intros acc x. by destruct (f x). }
  destruct (for_each_segments _ _ _ Happ Hout) as (segs & -> & HF).
  clear Hout. induction HF as [|x seg l segs Hx HF IH]; simpl; [constructor|].
  destruct (f x) as [r|e] eqn:Hr; simpl in Hx; [|done].
  injection Hx as <-. simpl. by constructor.
Qed.

Lemma resolve_requirement_Ok pid cat cid base res ams req r :
  resolve_requirement pid cat cid base res ams req = Ok r ->
  requirement_id r = req_id req
  /\ control_id r = cid
  /\ catalog_id r = cat
  /\ policy_id r = pid
  /\ text r = req_text req
  /\ applicability r = default [] (req_applicability req)
  /\ is_modified r
     = existsb (fun am => bool_decide (am_target_id am = req_id req)) ams
  /\ gemara_url r = canonicalUrl pid (py_str cid) (py_str (req_id req))
  /\ base_requirement_url r
     = baseUrl (py_str cat) (py_str cid) (py_str (req_id req))
  /\ (is_modified r = true ->
      exists rid, req_id req = Some rid
                  /\ base_requirement_id r
                     = Some (py_str cid +:+ "." +:+ last_item (split "." rid)))
  /\ (is_modified r = false -> base_requirement_id r = req_id req).
Proof.
  unfold resolve_requirement.
  destruct (existsb _ ams) eqn:Hm; [destruct (req_id req) as [rid|] eqn:Hid|];
    simpl; [|done|]; intros [= <-]; simpl; repeat split; try done.
  intros _. by exists rid.
Qed.

Lemma resolve_control_mod_appends pid cat ams :
  appends (resolve_control_mod get_base_control pid cat ams).
Proof.
  intros acc cm. unfold resolve_control_mod. apply for_each_appends.
  intros acc' req. by destruct (resolve_requirement _ _ _ _ _ _ req).
Qed.

Lemma resolve_control_ref_appends pid :
  appends (resolve_control_ref get_base_control pid).
Proof.
  intros acc cr. unfold resolve_control_ref. apply for_each_appends.
  apply resolve_control_mod_appends.
Qed.

(** What one control modification contributes to the output. *)
Lemma resolve_control_mod_Ok pid cat ams cm seg :
  resolve_control_mod get_base_control pid cat ams [] cm = Ok seg ->
  let base := get_base_control cat (cm_target_id cm) in
  let resolved := _apply_modifications base cm ams in
  Forall2
    (fun req r =>
       resolve_requirement pid cat (cm_target_id cm) base resolved ams req = Ok r)
    (c_assessment_requirements resolved) seg.
Proof. intros Hseg. by apply for_each_collect in Hseg. Qed.

Lemma resolve_control_ref_Ok pid cr part :
  resolve_control_ref get_base_control pid [] cr = Ok part ->
  exists segs,
    part = concat segs
    /\ Forall2
         (fun cm seg =>
            resolve_control_mod get_base_control pid (reference_id cr)
              (assessment_requirement_modifications cr) [] cm = Ok seg)
         (control_modifications cr) segs.
Proof. apply for_each_segments, resolve_control_mod_appends. Qed.

Lemma resolve_with_Ok policy out :
  resolve_with get_base_control policy = Ok out ->
  exists parts,
    out = concat parts
    /\ Forall2
         (fun cr part =>
            resolve_control_ref get_base_control (metadata_id policy) [] cr
            = Ok part)
         (control_references policy) parts.
Proof. apply for_each_segments, resolve_control_ref_appends. Qed.

(** The ids of the requirements of a resolved control are base ids or
    target ids. *)
Lemma apply_modifications_id_origin base cm ams req :
  In req (c_assessment_requirements (_apply_modifications base cm ams)) ->
  is_Some (req_id req) \/ exists am, In am ams /\ am_target_id am = req_id req.
Proof.
  rewrite apply_modifications_merge. unfold merge. rewrite in_app_iff.
  intros [Hin|Hin]; apply in_map_iff in Hin as (x & <- & Hx).
  - left. by rewrite overridden_id.
  - right. exists x. split; [|done]. by apply first_unmatched_In in Hx as [? _].
Qed.

(** The resolver returns for every policy whose assessment-requirement
    modifications all have a target id. *)
Lemma resolve_with_returns policy :
  (forall cr am, In cr (control_references policy) ->
                 In am (assessment_requirement_modifications cr) ->
                 is_Some (am_target_id am)) ->
  exists out, resolve_with get_base_control policy = Ok out.
Proof.
  intros Htargets. unfold resolve_with. apply for_each_returns.
  intros acc cr Hcr. unfold resolve_control_ref. apply for_each_returns.
  intros acc' cm Hcm. unfold resolve_control_mod. apply for_each_returns.
  intros acc'' req Hreq. unfold resolve_requirement.
  destruct (existsb _ _) eqn:Hm; simpl; [|by eexists].
  destruct (req_id req) as [rid|] eqn:Hid; simpl; [by eexists|].
  apply apply_modifications_id_origin in Hreq as [[? Hs]|(am & Ham & Heq)].
  - congruence.
  - destruct (Htargets cr am Hcr Ham) as [t Ht]. congruence.
Qed.

End Resolve.

(** ** Properties of the resolved requirements *)

Section Resolved.

Lemma Forall2_In_r {A B : Type} (P : A -> B -> Prop) l k y :
  Forall2 P l k -> In y k -> exists x, In x l /\ P x y.
Proof.
  induction 1 as [|x y' l k Hxy HF IH]; simpl; [done|].
  intros [->|Hin]; [by eauto|]. destruct (IH Hin) as (x' & ? & ?). by eauto.
Qed.

Lemma Forall2_map_eq {A B C : Type} (f : A -> C) (g : B -> C) l k :
  Forall2 (fun x y => g y = f x) l k -> List.map g k = List.map f l.
Proof. induction 1; simpl; congruence. Qed.


(** The flag is the membership of the id among the target ids. *)
Lemma is_modified_spec pid cat cid base res ams req r :
  resolve_requirement pid cat cid base res ams req = Ok r ->
  is_modified r = true
  <-> exists am, In am ams /\ am_target_id am = requirement_id r.
Proof.
  intros Hr. apply resolve_requirement_Ok in Hr as (-> & _ & _ & _ & _ & _ & -> & _).
  rewrite existsb_exists. split.
  - intros (am & ? & Heq). apply bool_decide_eq_true in Heq. by eauto.
  - intros (am & ? & Heq). exists am. split; [done|]. by apply bool_decide_eq_true.
Qed.

(** The requirement ids of what one control modification and one control
    reference contribute are those of the controls resolved for them. *)
Lemma resolve_control_mod_ids get_base_control pid cat ams cm seg :
  resolve_control_mod get_base_control pid cat ams [] cm = Ok seg ->
  List.map requirement_id seg
  = requirement_ids
      (_apply_modifications (get_base_control cat (cm_target_id cm)) cm ams).
Proof.
  intros Hseg. apply resolve_control_mod_Ok in Hseg. cbv zeta in Hseg.
  unfold requirement_ids. apply Forall2_map_eq.
  eapply Forall2_impl; [exact Hseg|]. intros req r Hr.
  by apply resolve_requirement_Ok in Hr as [? _].
Qed.

Lemma resolve_control_ref_ids get_base_control pid cr part :
  resolve_control_ref get_base_control pid [] cr = Ok part ->
  List.map requirement_id part
  = List.flat_map
      (fun cm =>
         requirement_ids
           (_apply_modifications
              (get_base_control (reference_id cr) (cm_target_id cm)) cm
              (assessment_requirement_modifications cr)))
      (control_modifications cr).
Proof.
  intros Hpart. apply resolve_control_ref_Ok in Hpart as (segs & -> & HF).
  induction HF as [|cm seg cms segs Hseg HF IH]; [done|].
  cbn [concat flat_map]. rewrite List.map_app, IH.
  by rewrite (resolve_control_mod_ids _ _ _ _ _ _ Hseg).
Qed.

End Resolved.

(** A modification that overrides nothing still marks its target as
    modified. *)
Example is_modified_without_change :
  exists r,
    resolve_assessment_requirements idle_override = Ok [r]
    /\ is_modified r = true
    /\ text r = "Base assessment requirement text"
    /\ applicability r = ["default"].
Proof. eexists. by repeat split. Qed.

(** A modification without a target id becomes a requirement without an id,
    on which the derivation of the base-requirement-id raises. *)
Example resolve_raises_without_target :
  resolve_assessment_requirements untargeted
  = Raise (AttributeError "'NoneType' object has no attribute 'split'").
Proof. reflexivity. Qed.

(** C2: whenever the resolver returns, its output is the concatenation, in
    the order of the control references, of what resolving each control
    reference alone appends to an empty list.  The part of a control
    reference holds, in order, the requirement ids of the controls resolved
    for its control modifications, and in it the is-modified flag of a
    resolved requirement is true if and only if its requirement id is the
    target id of one of the assessment-requirement modifications of that
    control reference; no field value of the modification takes part. *)
Theorem is_modified_iff_targeted :
  forall get_base_control policy out,
    resolve_with get_base_control policy = Ok out ->
    exists parts,
      out = concat parts
      /\ Forall2
           (fun cr part =>
              resolve_control_ref get_base_control (metadata_id policy) [] cr
              = Ok part
              /\ List.map requirement_id part
                 = List.flat_map
                     (fun cm =>
                        requirement_ids
                          (_apply_modifications
                             (get_base_control (reference_id cr)
                                (cm_target_id cm))
                             cm (assessment_requirement_modifications cr)))
                     (control_modifications cr)
              /\ forall r, In r part ->
                   (is_modified r = true
                    <-> exists am,
                          In am (assessment_requirement_modifications cr)
                          /\ am_target_id am = requirement_id r))
           (control_references policy) parts.
Proof.
  intros gbc policy out Hout.
  destruct (resolve_with_Ok gbc policy out Hout) as (parts & Hparts & HF).
  exists parts. split; [done|].
  eapply Forall2_impl; [exact HF|]. clear. intros cr part Hpart. simpl in *.
  split; [done|]. split; [by apply (resolve_control_ref_ids _ _ _ _ Hpart)|].
  intros r Hr.
  apply resolve_control_ref_Ok in Hpart as (segs & -> & HF).
  apply in_concat in Hr as (seg & Hseg & Hr).
  apply (Forall2_In_r _ _ _ _ HF) in Hseg as (cm & _ & Hcm).
  apply resolve_control_mod_Ok in Hcm.
  apply (Forall2_In_r _ _ _ _ Hcm) in Hr as (req & _ & Hreq).
  by apply is_modified_spec in Hreq.
Qed.

Lemma is_modified_iff_targeted_witness :
  exists parts,
    two_controls_resolved ++ [placeholder_resolved "p"] = concat parts
    /\ Forall2
         (fun cr part =>
            resolve_control_ref _get_base_control "p" [] cr = Ok part
            /\ List.map requirement_id part
               = List.flat_map
                   (fun cm =>
                      requirement_ids
                        (_apply_modifications
                           (_get_base_control (reference_id cr)
                              (cm_target_id cm))
                           cm (assessment_requirement_modifications cr)))
                   (control_modifications cr)
            /\ forall r, In r part ->
                 (is_modified r = true
                  <-> exists am,
                        In am (assessment_requirement_modifications cr)
                        /\ am_target_id am = requirement_id r))
         (two_controls :: control_references (placeholder_policy "p")) parts.
Proof.
  apply (is_modified_iff_targeted _get_base_control
           {| metadata_id := "p";
              control_references :=
                two_controls :: control_references (placeholder_policy "p") |}).
  reflexivity.
Defined.

(** C3: for every resolved requirement the resolver returns: when
    is-modified is true, the requirement id is a string and
    base-requirement-id is the control id (as the f-string renders it),
    then a dot, then the part of the requirement id after its last dot (the
    whole requirement id when it has no dot); when is-modified is false,
    base-requirement-id is the requirement id.  For the placeholder policy,
    control id CCC.C01 with the modified requirement CCC.C01.TR01 yields the
    base-requirement-id CCC.C01.TR01. *)
Theorem base_requirement_id_derivation :
  (forall get_base_control policy out,
     resolve_with get_base_control policy = Ok out ->
     forall r, In r out ->
       (is_modified r = true ->
        exists rid,
          requirement_id r = Some rid
          /\ (forall pre suf,
                rid = pre +:+ "." +:+ suf -> mentions "." suf = false ->
                base_requirement_id r
                = Some (py_str (control_id r) +:+ "." +:+ suf))
          /\ (mentions "." rid = false ->
              base_requirement_id r
              = Some (py_str (control_id r) +:+ "." +:+ rid)))
       /\ (is_modified r = false -> base_requirement_id r = requirement_id r))
  /\ (forall policy,
        exists r,
          resolve_assessment_requirements (placeholder_policy policy) = Ok [r]
          /\ control_id r = Some "CCC.C01"
          /\ requirement_id r = Some "CCC.C01.TR01"
          /\ is_modified r = true
          /\ base_requirement_id r = Some "CCC.C01.TR01").
Proof.
  split.
  - intros gbc policy out Hout r Hr.
    destruct (resolve_with_Ok gbc policy out Hout) as (parts & -> & HF).
    apply in_concat in Hr as (part & Hpart & Hr).
    apply (Forall2_In_r _ _ _ _ HF) in Hpart as (cr & _ & Hcr).
    apply resolve_control_ref_Ok in Hcr as (segs & -> & HF').
    apply in_concat in Hr as (seg & Hseg & Hr).
    apply (Forall2_In_r _ _ _ _ HF') in Hseg as (cm & _ & Hcm).
    apply resolve_control_mod_Ok in Hcm.
    apply (Forall2_In_r _ _ _ _ Hcm) in Hr as (req & _ & Hreq).
    apply resolve_requirement_Ok
      in Hreq as (Hid & Hcid & _ & _ & _ & _ & _ & _ & _ & Hmod & Hbase).
    rewrite Hid, Hcid. split; [|done].
    intros Hm. destruct (Hmod Hm) as (rid & Hrid & Hb). exists rid.
    split; [done|]. rewrite Hb. split.
    + intros pre suf -> Hsuf.
      change (pre +:+ "." +:+ suf) with (pre +:+ String "."%char suf).
      by rewrite (last_split_after "." pre suf Hsuf).
    + intros Hno. by rewrite (last_split_whole "." rid Hno).
  - intros policy. exists (placeholder_resolved policy). by repeat split.
Qed.

Lemma base_requirement_id_derivation_witness :
  (is_modified (placeholder_resolved "p") = true ->
   exists rid,
     requirement_id (placeholder_resolved "p") = Some rid
     /\ (forall pre suf,
           rid = pre +:+ "." +:+ suf -> mentions "." suf = false ->
           base_requirement_id (placeholder_resolved "p")
           = Some (py_str (control_id (placeholder_resolved "p")) +:+ "." +:+ suf))
     /\ (mentions "." rid = false ->
         base_requirement_id (placeholder_resolved "p")
         = Some (py_str (control_id (placeholder_resolved "p")) +:+ "." +:+ rid)))
  /\ (is_modified (placeholder_resolved "p") = false ->
      base_requirement_id (placeholder_resolved "p")
      = requirement_id (placeholder_resolved "p")).
Proof.
  apply (proj1 base_requirement_id_derivation _get_base_control
           (placeholder_policy "p") [placeholder_resolved "p"]).
  - reflexivity.
  - simpl. by left.
Defined.





(** ** Strings: prefixes and spans *)

Section Strings.

Lemma append_cons x (a b : string) : String x a +:+ b = String x (a +:+ b).
Proof. reflexivity. Qed.

Lemma append_assoc (a b c : string) : (a +:+ b) +:+ c = a +:+ b +:+ c.
Proof. induction a as [|x a IH]; [done|]. by rewrite !append_cons, IH. Qed.

Lemma strip_prefix_append p s : strip_prefix p (p +:+ s) = Some s.
Proof.
  induction p as [|a p IH]; simpl; [done|].
  by rewrite bool_decide_eq_true_2.
Qed.

Lemma strip_prefix_Some p s rest :
  strip_prefix p s = Some rest -> s = p +:+ rest.
Proof.
  revert s. induction p as [|a p IH]; intros s; simpl.
  - by intros [= ->].
  - destruct s as [|b s]; [done|]. destruct (decide (a = b)) as [->|Hne].
    + rewrite bool_decide_eq_true_2 by done. intros Hs. by rewrite (IH s Hs).
    + by rewrite bool_decide_eq_false_2.
Qed.

(** What [span_not] returns: the part before the first [stop]. *)
Lemma span_not_spec stop s :
  s = fst (span_not stop s) +:+ snd (span_not stop s)
  /\ mentions stop (fst (span_not stop s)) = false
  /\ (snd (span_not stop s) = EmptyString
      \/ exists rest, snd (span_not stop s) = String stop rest).
Proof.
  induction s as [|c s IH]; simpl; [by auto|].
  destruct (decide (c = stop)) as [->|Hne].
  - rewrite bool_decide_eq_true_2 by done. simpl. by eauto.
  - rewrite bool_decide_eq_false_2 by done.
    destruct (span_not stop s) as [a b]. simpl in *.
    rewrite bool_decide_eq_false_2 by done.
    destruct IH as (Hs & Hm & Hb). by rewrite append_cons, <- Hs.
Qed.

Lemma span_not_append stop a b :
  mentions stop a = false ->
  span_not stop (a +:+ b)
  = (a +:+ fst (span_not stop b), snd (span_not stop b)).
Proof.
  induction a as [|c a IH]; simpl.
  - intros _. change (EmptyString +:+ b) with b.
    change (EmptyString +:+ fst (span_not stop b)) with (fst (span_not stop b)).
    by destruct (span_not stop b).
  - intros [Hc Ha]%orb_false_iff. rewrite Hc, (IH Ha). done.
Qed.

Lemma span_not_stop stop a rest :
  mentions stop a = false ->
  span_not stop (a +:+ String stop rest) = (a, String stop rest).
Proof.
  intros Ha. rewrite (span_not_append _ _ _ Ha). simpl.
  rewrite bool_decide_eq_true_2 by done. simpl.
  f_equal. clear. induction a as [|c a IH]; [done|].
  by rewrite append_cons, IH.
Qed.

(** A prefix no longer than the span is part of it. *)
Lemma span_not_prefix stop pre x :
  String.length pre <= String.length (fst (span_not stop (pre +:+ x))) ->
  fst (span_not stop (pre +:+ x)) = pre +:+ fst (span_not stop x).
Proof.
  induction pre as [|c pre IH]; simpl; [done|].
  destruct (bool_decide (c = stop)); simpl; [lia|].
  destruct (span_not stop (pre +:+ x)) as [a b] eqn:Hs. simpl in *.
  intros Hlen. rewrite IH; [done|lia].
Qed.

End Strings.

(** ** Canonical URLs *)

Section CanonicalUrl.

Lemma slash_controls x : "/controls/" +:+ x = String "/" ("controls/" +:+ x).
Proof. reflexivity. Qed.

Lemma slash_requirements x :
  "/requirements/" +:+ x = String "/" ("requirements/" +:+ x).
Proof. reflexivity. Qed.

Lemma parse_canonical_url_canonicalUrl p c r :
  mentions "/" p = false -> mentions "/" c = false ->
  parse_canonical_url (canonicalUrl p c r) = Some (p, c, r).
Proof.
  intros Hp Hc. unfold parse_canonical_url, canonicalUrl, mbind, option_bind.
  rewrite strip_prefix_append.
  rewrite slash_controls, (span_not_stop _ _ _ Hp), <- slash_controls.
  rewrite strip_prefix_append.
  rewrite slash_requirements, (span_not_stop _ _ _ Hc), <- slash_requirements.
  by rewrite strip_prefix_append.
Qed.

Lemma match_policy_url_canonicalUrl p c r :
  mentions "/" p = false -> p <> EmptyString ->
  match_policy_url (canonicalUrl p c r) = Some p.
Proof.
  intros Hp Hne. unfold match_policy_url, canonicalUrl.
  rewrite strip_prefix_append.
  rewrite slash_controls, (span_not_stop _ _ _ Hp), <- slash_controls.
  rewrite strip_prefix_append. by destruct p.
Qed.

End CanonicalUrl.

(** C5, as stated, fails: a slash inside an id moves the boundary between
    the policy id and the control id, so two distinct triples are mapped to
    one URL, and reading that URL back by the grammar does not recover the
    triple it was built from. *)
Lemma canonicalUrl_injective_counterexample :
  canonicalUrl "a/controls/b" "c" "r" = canonicalUrl "a" "b/controls/c" "r"
  /\ ("a/controls/b", "c", "r") <> ("a", "b/controls/c", "r")
  /\ parse_canonical_url (canonicalUrl "a/controls/b" "c" "r")
     <> Some ("a/controls/b", "c", "r").
Proof. split; [reflexivity|]. split; [discriminate|]. vm_compute. discriminate. Qed.

(** C5 (amended): over the triples whose policy id and control id contain
    no slash, the canonical URL is injective, and reading a canonical URL
    back by its grammar recovers the triple it was built from; the pattern
    of the validator recovers the policy id when it is not empty. *)
Theorem canonicalUrl_injective_parseable :
  forall p c r,
    mentions "/" p = false -> mentions "/" c = false ->
    parse_canonical_url (canonicalUrl p c r) = Some (p, c, r)
    /\ (p <> EmptyString -> match_policy_url (canonicalUrl p c r) = Some p)
    /\ (forall p' c' r',
          mentions "/" p' = false -> mentions "/" c' = false ->
          canonicalUrl p c r = canonicalUrl p' c' r' ->
          (p, c, r) = (p', c', r')).
Proof.
  intros p c r Hp Hc. split; [by apply parse_canonical_url_canonicalUrl|].
  split; [by apply match_policy_url_canonicalUrl|].
  intros p' c' r' Hp' Hc' Heq.
  pose proof (parse_canonical_url_canonicalUrl p c r Hp Hc) as H1.
  pose proof (parse_canonical_url_canonicalUrl p' c' r' Hp' Hc') as H2.
  rewrite Heq in H1. congruence.
Qed.

Lemma canonicalUrl_injective_parseable_witness :
  parse_canonical_url (canonicalUrl "p" "CCC.C01" "CCC.C01.TR01")
  = Some ("p", "CCC.C01", "CCC.C01.TR01")
  /\ ("p" <> EmptyString ->
      match_policy_url (canonicalUrl "p" "CCC.C01" "CCC.C01.TR01") = Some "p")
  /\ (forall p' c' r',
        mentions "/" p' = false -> mentions "/" c' = false ->
        canonicalUrl "p" "CCC.C01" "CCC.C01.TR01" = canonicalUrl p' c' r' ->
        ("p", "CCC.C01", "CCC.C01.TR01") = (p', c', r')).
Proof.
  apply (canonicalUrl_injective_parseable "p" "CCC.C01" "CCC.C01.TR01");
    reflexivity.
Defined.

(** ** Lookup and structural validation *)

Section Validation.

Lemma eq_str_true x s : eq_str x s = true <-> x = JStr s.
Proof.
  destruct x; simpl; try (split; [done|by intros [=]]).
  rewrite bool_decide_eq_true. split; [by intros ->|by intros [=]].
Qed.

Lemma find_control_file_Some url controls_dir cf :
  find_control_file url controls_dir = Some cf ->
  In cf controls_dir
  /\ exists o, cf_load cf = Json (JObj o) /\ artifact_id (JObj o) = JStr url.
Proof.
  intros Hfind. apply find_some in Hfind as [Hin Hid]. split; [done|].
  destruct (cf_load cf) as [data| |]; [|done..].
  destruct data as [| | | | |o]; simpl in Hid; try done.
  exists o. split; [done|]. by apply eq_str_true.
Qed.

(** The identity check is the only source of an identity mismatch. *)
Lemma validate_data_IdMismatch data url e f :
  validate_data data url = Ok (false, Some (IdMismatch e f)) ->
  eq_str (artifact_id data) url = false.
Proof.
  intros H. destruct data as [| | | | |o]; try done.
  unfold validate_data in H. simpl in H. unfold artifact_id. simpl.
  destruct (eq_str (default (JStr EmptyString) (o !! "$id")) url); [|done].
  exfalso. crack H; discriminate.
Qed.

Lemma layer_test g s :
  eq_str (default (JStr EmptyString) (g !! "layer")) s = true ->
  s <> EmptyString ->
  (g : gmap string json) !! "layer" = Some (JStr s).
Proof.
  intros Heq Hs. destruct (g !! "layer") as [l|]; simpl in Heq.
  - by apply eq_str_true in Heq as ->.
  - apply bool_decide_eq_true in Heq. congruence.
Qed.

(** Structural validation succeeds exactly on the artifacts that have
    the fields required always and those required by their layer. *)
Lemma validate_data_true data url :
  validate_data data url = Ok (true, None)
  <-> always_required data url /\ layer_required data.
Proof.
  split.
  - intros H. destruct data as [| | | | |o]; try done.
    unfold validate_data in H. simpl in H.
    destruct (eq_str (default (JStr EmptyString) (o !! "$id")) url) eqn:Hid;
      simpl in H; [|done].
    destruct (bool_decide (is_Some (o !! "control-id"))) eqn:Hc;
      simpl in H; [|done].
    destruct (bool_decide (is_Some (o !! "metadata"))) eqn:Hm;
      simpl in H; [|done].
    destruct (o !! "metadata") as [[| | | | |m]|] eqn:Hmd; simpl in H; try done.
    destruct (m !! "gemara") as [[| | | | |g]|] eqn:Hg; simpl in H; try done;
      try (by destruct b); try (by destruct (negb (Qeq_bool q 0)));
      try (by destruct (negb (bool_decide (s = EmptyString))));
      try (by destruct l).
    destruct (negb (bool_decide (size g = 0))); simpl in H; [|done].
    destruct (bool_decide (is_Some (g !! "requirement-id"))) eqn:Hr;
      simpl in H; [|done].
    destruct (bool_decide (is_Some (g !! "source"))) eqn:Hs;
      simpl in H; [|done].
    destruct (bool_decide (is_Some (g !! "applicability"))) eqn:Ha;
      simpl in H; [|done].
    apply bool_decide_eq_true in Hc, Hr, Hs, Ha. apply eq_str_true in Hid.
    split.
    + unfold always_required, artifact_id, gemara_field, gemara_meta_of, top_field.
      by rewrite Hmd, Hg.
    + unfold layer_required, gemara_field, gemara_meta_of, top_field.
      rewrite Hmd, Hg.
      destruct (eq_str (default (JStr EmptyString) (g !! "layer")) "Layer 3")
        eqn:H3; simpl in H.
      * apply layer_test in H3; [|done].
        destruct (bool_decide (is_Some (g !! "policy-id"))) eqn:Hp;
          simpl in H; [|done].
        destruct (bool_decide (is_Some (g !! "base-requirement"))) eqn:Hb;
          simpl in H; [|done].
        apply bool_decide_eq_true in Hp, Hb. split; [done|].
        rewrite H3. by intros [=].
      * split.
        { intros Hl. rewrite Hl in H3. by vm_compute in H3. }
        destruct (eq_str (default (JStr EmptyString) (g !! "layer")) "Layer 2")
          eqn:H2; simpl in H.
        { destruct (bool_decide (is_Some (g !! "catalog-id"))) eqn:Hcat;
            simpl in H; [|done].
          by apply bool_decide_eq_true in Hcat. }
        intros Hl. rewrite Hl in H2. by vm_compute in H2.
  - intros [(Hid & Hc & Hr & Hs & Ha) (H3 & H2)].
    unfold artifact_id, gemara_field, gemara_meta_of, top_field in *.
    destruct data as [| | | | |o]; try by destruct Hc.
    destruct (o !! "metadata") as [[| | | | |m]|] eqn:Hmd; try by destruct Hr.
    destruct (m !! "gemara") as [[| | | | |g]|] eqn:Hg; try by destruct Hr.
    unfold validate_data. simpl. rewrite Hid. simpl.
    rewrite Hmd.
    rewrite (bool_decide_eq_true_2 (is_Some (o !! "control-id"))) by done.
    rewrite (bool_decide_eq_true_2 (is_Some (Some (JObj m)))) by eauto.
    simpl. rewrite Hg. simpl.
    assert (size g <> 0) as Hsz.
    { destruct Hr as [x Hx]. intros Hz. apply map_size_empty_iff in Hz.
      by rewrite Hz, lookup_empty in Hx. }
    rewrite (bool_decide_eq_false_2 _ Hsz). simpl.
    rewrite !bool_decide_eq_true_2 by done. simpl.
    destruct (eq_str (default (JStr EmptyString) (g !! "layer")) "Layer 3")
      eqn:E3.
    + apply layer_test in E3; [|done]. destruct (H3 E3) as [Hp Hb].
      simpl. by rewrite !bool_decide_eq_true_2 by done.
    + destruct (eq_str (default (JStr EmptyString) (g !! "layer")) "Layer 2")
        eqn:E2; [|done].
      apply layer_test in E2; [|done]. simpl.
      by rewrite bool_decide_eq_true_2 by auto.
Qed.

Lemma validate_control_file_true cf url :
  validate_control_file cf url = (true, None)
  <-> exists data,
        cf_load cf = Json data
        /\ always_required data url /\ layer_required data.
Proof.
  unfold validate_control_file. split.
  - destruct (cf_load cf) as [data| |]; [|done..].
    destruct (validate_data data url) as [r|e] eqn:Hv; [|done].
    intros ->. exists data. split; [done|]. by apply validate_data_true.
  - intros (data & -> & Hreq). apply validate_data_true in Hreq.
    by rewrite Hreq.
Qed.

End Validation.

(** ** Extraction *)

Section Extraction.

Lemma match_url_at_Some s m :
  match_url_at s = Some m ->
  exists body tail,
    s = m +:+ tail
    /\ m = "gemara://" +:+ body
    /\ body <> EmptyString
    /\ mentions quote body = false
    /\ (tail = EmptyString \/ exists t, tail = String quote t)
    /\ m = fst (span_not quote s).
Proof.
  unfold match_url_at.
  destruct (strip_prefix "gemara://" s) as [rest|] eqn:Hp; [|done].
  apply strip_prefix_Some in Hp as ->.
  destruct (span_not_spec quote rest) as (Hrest & Hbody & Htail).
  destruct (fst (span_not quote rest)) as [|b body] eqn:Hfst; [done|].
  intros [= <-]. exists (String b body), (snd (span_not quote rest)).
  split; [by rewrite append_assoc, <- Hrest|]. split; [done|].
  split; [done|]. split; [done|]. split; [done|].
  rewrite span_not_append by reflexivity. simpl. by rewrite Hfst.
Qed.

Lemma match_url_at_start c rest :
  c <> quote -> match_url_at ("gemara://" +:+ String c rest) <> None.
Proof.
  intros Hc. unfold match_url_at. rewrite strip_prefix_append. simpl.
  rewrite bool_decide_eq_false_2 by done.
  by destruct (span_not quote rest).
Qed.

Lemma url_occurrence_cons a s u :
  url_occurrence s u -> url_occurrence (String a s) u.
Proof.
  intros (pre & body & post & -> & Hu). exists (String a pre), body, post.
  by rewrite append_cons.
Qed.

(** Every string [findall] returns is an occurrence of the pattern. *)
Lemma findall_from_sound s :
  forall k u, In u (findall_from k s) -> url_occurrence s u.
Proof.
  induction s as [|a s IH]; intros k u; simpl; [done|].
  destruct k as [|k].
  - destruct (match_url_at (String a s)) as [m|] eqn:Hm.
    + intros [<-|Hin]; [|by eapply url_occurrence_cons, IH].
      apply match_url_at_Some in Hm
        as (body & tail & Hs & Hbody & Hne & Hq & Htail & _).
      exists EmptyString, body, tail. by rewrite Hs.
    + intros Hin. by eapply url_occurrence_cons, IH.
  - intros Hin. by eapply url_occurrence_cons, IH.
Qed.

(** Every occurrence of [gemara://] followed by a character other than
    the quote lies in a string that [findall] returns, which ends where
    the occurrence, taken up to the next quote, ends. *)
Lemma findall_from_covers s :
  forall k pre c rest,
    s = pre +:+ "gemara://" +:+ String c rest ->
    c <> quote ->
    k <= String.length pre ->
    exists u lead,
      In u (findall_from k s)
      /\ u = lead +:+ "gemara://" +:+ fst (span_not quote (String c rest)).
Proof.
  induction s as [|a s IH]; intros k pre c rest Hs Hc Hk.
  { by destruct pre. }
  simpl. destruct k as [|k].
  - destruct (match_url_at (String a s)) as [m|] eqn:Hm.
    + destruct (decide (String.length pre < String.length m)) as [Hlt|Hge].
      * exists m, pre. split; [by left|].
        apply match_url_at_Some in Hm as (_ & _ & _ & _ & _ & _ & _ & ->).
        rewrite Hs in *. rewrite span_not_prefix by lia.
        by rewrite (span_not_append quote "gemara://") by reflexivity.
      * destruct pre as [|a' pre].
        { apply match_url_at_Some in Hm as (b & _ & _ & -> & _). simpl in Hge. lia. }
        rewrite append_cons in Hs. injection Hs as -> Hs.
        destruct (IH (String.length m - 1) pre c rest Hs Hc) as (u & lead & Hu & ->).
        { simpl in Hge. lia. }
        eexists _, lead. split; [right; exact Hu|done].
    + destruct pre as [|a' pre].
      { rewrite Hs in Hm. by apply match_url_at_start in Hm. }
      rewrite append_cons in Hs. injection Hs as -> Hs.
      apply (IH 0 pre c rest Hs Hc). lia.
  - destruct pre as [|a' pre]; [simpl in Hk; lia|].
    rewrite append_cons in Hs. injection Hs as -> Hs.
    apply (IH k pre c rest Hs Hc). simpl in Hk. lia.
Qed.

Lemma urls_fold_elem (files : list arch_file) :
  forall (acc : gset string) u,
    u ∈ fold_left
          (fun (urls : gset string) arch_file =>
             match af_read_text arch_file with
             | Some content => urls ∪ list_to_set (findall content)
             | None => urls
             end) files acc
    <-> u ∈ acc
        \/ exists af content,
             In af files /\ af_read_text af = Some content
             /\ In u (findall content).
Proof.
  induction files as [|af files IH]; intros acc u; simpl.
  - split; [by left|]. by intros [?|(? & ? & [] & _)].
  - rewrite IH. destruct (af_read_text af) as [content|] eqn:Haf.
    + rewrite elem_of_union, elem_of_list_to_set, list_elem_of_In. split.
      * intros [[?|?]|(af' & c' & ? & ? & ?)]; [by left| |];
          right; [exists af, content|exists af', c']; by auto.
      * intros [?|(af' & c' & [<-|?] & Hc & ?)]; [by auto| |].
        -- left. right. congruence.
        -- right. by exists af', c'.
    + split.
      * intros [?|(af' & c' & ? & ? & ?)]; [by left|].
        right. exists af', c'. by auto.
      * intros [?|(af' & c' & [<-|?] & Hc & ?)]; [by left|congruence|].
        right. by exists af', c'.
Qed.

Lemma sorted_spec (urls : gset string) :
  StronglySorted String.le (sorted urls)
  /\ NoDup (sorted urls)
  /\ forall u, In u (sorted urls) <-> u ∈ urls.
Proof.
  unfold sorted. split; [apply StronglySorted_merge_sort; apply _|].
  split.
  - rewrite merge_sort_Permutation. apply NoDup_elements.
  - intros u. rewrite <- list_elem_of_In, merge_sort_Permutation.
    apply elem_of_elements.
Qed.

End Extraction.

(** ** The validation run *)

Section Run.

Lemma check_url_appends controls_dir errors warnings url :
  check_url controls_dir (errors, warnings) url
  = (errors ++ fst (check_url controls_dir ([], []) url),
     warnings ++ snd (check_url controls_dir ([], []) url)).
Proof.
  unfold check_url. destruct (find_control_file url controls_dir) as [cf|].
  - destruct (validate_control_file cf url) as [[] msg]; simpl;
      by rewrite app_nil_r.
  - simpl. by rewrite app_nil_r.
Qed.

(** Every URL is checked, and what it yields is appended. *)
Lemma check_urls_accumulate controls_dir urls :
  forall errors warnings,
    fold_left (check_url controls_dir) urls (errors, warnings)
    = (errors ++ fst (contributions controls_dir urls),
       warnings ++ snd (contributions controls_dir urls)).
Proof.
  induction urls as [|url urls IH]; intros errors warnings.
  - simpl. by rewrite !app_nil_r.
  - cbn [fold_left]. rewrite check_url_appends, IH.
    unfold contributions. cbn [flat_map fst snd]. by rewrite !app_assoc.
Qed.

Lemma check_policy_id_mismatch cf data url expected found :
  cf_load cf = Json data ->
  gemara_field data "layer" = Some (JStr "Layer 3") ->
  match_policy_url url = Some expected ->
  gemara_field data "policy-id" = Some found ->
  found <> JStr expected ->
  check_policy_id cf url = [PolicyIdMismatch (cf_path cf) expected found].
Proof.
  intros Hload Hlayer Hurl Hpid Hne. unfold check_policy_id. rewrite Hload.
  unfold gemara_field, gemara_meta_of, top_field in *.
  destruct data as [| | | | |o]; try done.
  destruct (o !! "metadata") as [[| | | | |m]|] eqn:Hmd; try done.
  destruct (m !! "gemara") as [[| | | | |g]|] eqn:Hg; try done.
  simpl. rewrite Hmd. simpl. rewrite Hg. simpl. rewrite Hlayer. simpl.
  rewrite Hurl. simpl. rewrite Hpid. simpl.
  destruct (eq_str found expected) eqn:Heq; [|done].
  by apply eq_str_true in Heq.
Qed.

(** The policy-id check of [main] gives the warning of the artifact. *)
Lemma check_policy_id_spec cf url :
  check_policy_id cf url = policy_warnings cf url.
Proof.
  unfold check_policy_id, policy_warnings, gemara_field, gemara_meta_of,
    top_field.
  destruct (cf_load cf) as [data| |]; [|done..].
  destruct data as [| | | | |o]; try done. simpl.
  destruct (o !! "metadata") as [[| | | | |m]|]; simpl; try done.
  destruct (m !! "gemara") as [[| | | | |g]|]; simpl; try done.
  destruct (g !! "layer") as [layer|]; simpl; [|done].
  destruct (eq_str layer "Layer 3"); simpl;
    destruct (match_policy_url url) as [expected|]; simpl; try done.
  by destruct (eq_str _ expected).
Qed.

(** The body of the loop, started from empty lists, yields what the URL
    contributes. *)
Lemma check_url_per_url controls_dir url :
  check_url controls_dir ([], []) url
  = (url_errors controls_dir url, url_warnings controls_dir url).
Proof.
  unfold check_url, url_errors, url_warnings.
  destruct (find_control_file url controls_dir) as [cf|]; [|done].
  destruct (validate_control_file cf url) as [[] msg]; simpl; [|done].
  by rewrite check_policy_id_spec.
Qed.

Lemma contributions_per_url controls_dir urls :
  contributions controls_dir urls
  = (List.flat_map (url_errors controls_dir) urls,
     List.flat_map (url_warnings controls_dir) urls).
Proof.
  unfold contributions. f_equal; apply flat_map_ext; intros url;
    by rewrite check_url_per_url.
Qed.

(** The report of a run that extracted a URL. *)
Lemma main_per_url architecture_dir controls_dir :
  extract_gemara_urls architecture_dir <> [] ->
  let run := main (Some architecture_dir) (Some controls_dir) in
  errors run
  = List.flat_map (url_errors controls_dir)
      (extract_gemara_urls architecture_dir)
  /\ warnings run
     = List.flat_map (url_warnings controls_dir)
         (extract_gemara_urls architecture_dir)
  /\ exit_code run = (if errors run is [] then 0 else 1)%Z.
Proof.
  intros Hurls. unfold main.
  destruct (extract_gemara_urls architecture_dir) as [|url urls] eqn:He; [done|].
  rewrite check_urls_accumulate, contributions_per_url. cbn [app fst snd].
  by destruct (flat_map (url_errors controls_dir) (url :: urls)).
Qed.

Lemma flat_map_not_nil {A B : Type} (f : A -> list B) l :
  List.flat_map f l <> [] <-> exists x, In x l /\ f x <> [].
Proof.
  induction l as [|a l IH]; simpl.
  - split; [done|by intros (? & [] & _)].
  - destruct (f a) as [|b bs] eqn:Ha; simpl.
    + rewrite IH. split; intros (x & Hx & Hne); exists x.
      * split; [by right|done].
      * destruct Hx as [<-|Hx]; [congruence|done].
    + split; [|done]. intros _. exists a. split; [by left|by rewrite Ha].
Qed.

Lemma policy_warnings_mismatch cf data url expected found :
  cf_load cf = Json data ->
  gemara_field data "layer" = Some (JStr "Layer 3") ->
  match_policy_url url = Some expected ->
  gemara_field data "policy-id" = Some found ->
  found <> JStr expected ->
  policy_warnings cf url = [PolicyIdMismatch (cf_path cf) expected found].
Proof.
  intros Hload Hlayer Hurl Hpid Hne.
  rewrite <- check_policy_id_spec. by apply (check_policy_id_mismatch cf data).
Qed.

End Run.

(** C8: an artifact that the lookup returns for a URL has that URL as its
    identity, and structural validation of it against the same URL never
    reports an identity mismatch. *)
Theorem lookup_passes_identity_check :
  forall url controls_dir cf,
    find_control_file url controls_dir = Some cf ->
    (exists data, cf_load cf = Json data /\ artifact_id data = JStr url)
    /\ forall expected found,
         validate_control_file cf url
         <> (false, Some (IdMismatch expected found)).
Proof.
  intros url controls_dir cf Hfind.
  apply find_control_file_Some in Hfind as (_ & o & Hload & Hid).
  split; [by exists (JObj o)|]. intros expected found.
  unfold validate_control_file. rewrite Hload.
  destruct (validate_data (JObj o) url) as [r|e] eqn:Hv; [|done].
  intros ->. apply validate_data_IdMismatch in Hv.
  rewrite Hid in Hv. simpl in Hv. by rewrite bool_decide_eq_true_2 in Hv.
Qed.

Lemma lookup_passes_identity_check_witness :
  (exists data, cf_load layer3_file = Json data
                /\ artifact_id data = JStr layer3_url)
  /\ forall expected found,
       validate_control_file layer3_file layer3_url
       <> (false, Some (IdMismatch expected found)).
Proof.
  apply (lookup_passes_identity_check layer3_url controls layer3_file).
  reflexivity.
Defined.

(** C10: for an artifact whose [metadata.gemara.layer] is absent or is
    neither Layer 3 nor Layer 2, structural validation succeeds if and only
    if the always-required fields are present and the identity is the URL;
    no layer-specific field is looked at. *)
Theorem other_layer_checks_common_fields_only :
  forall cf data url,
    cf_load cf = Json data ->
    gemara_field data "layer" <> Some (JStr "Layer 3") ->
    gemara_field data "layer" <> Some (JStr "Layer 2") ->
    (validate_control_file cf url = (true, None) <-> always_required data url).
Proof.
  intros cf data url Hload H3 H2. rewrite validate_control_file_true. split.
  - intros (data' & Hload' & Hreq & _). congruence.
  - intros Hreq. exists data. split; [done|]. split; [done|].
    split; [by intros ?|by intros ?].
Qed.

Lemma other_layer_checks_common_fields_only_witness :
  validate_control_file plain_file plain_url = (true, None).
Proof.
  apply (other_layer_checks_common_fields_only plain_file plain_artifact plain_url).
  - reflexivity.
  - vm_compute. discriminate.
  - vm_compute. discriminate.
  - repeat split; vm_compute; eauto.
Defined.

(** C6: a run that extracted at least one URL exits with status 1 if and
    only if its list of errors is not empty, and with status 0 otherwise.
    Its errors are, for the extracted URLs in order, one error for each URL
    without an artifact and one for each URL whose artifact fails structural
    validation, and its warnings the policy-id warnings of the URLs whose
    artifact is structurally valid; so the run exits with status 1 exactly
    when some URL contributes an error, whatever the warnings.  An extracted
    URL whose artifact is structurally valid, is of Layer 3 and carries a
    policy id other than the one embedded in the URL contributes no error
    and exactly one warning to the run. *)
Theorem run_fails_iff_errors :
  forall architecture_dir controls_dir,
    extract_gemara_urls architecture_dir <> [] ->
    let run := main (Some architecture_dir) (Some controls_dir) in
    let urls := extract_gemara_urls architecture_dir in
    (exit_code run = 1%Z <-> errors run <> [])
    /\ (exit_code run = 0%Z <-> errors run = [])
    /\ errors run = List.flat_map (url_errors controls_dir) urls
    /\ warnings run = List.flat_map (url_warnings controls_dir) urls
    /\ (exit_code run = 1%Z
        <-> exists url, In url urls /\ url_errors controls_dir url <> [])
    /\ (forall before url after artifact data expected found,
          urls = before ++ url :: after ->
          find_control_file url controls_dir = Some artifact ->
          cf_load artifact = Json data ->
          validate_control_file artifact url = (true, None) ->
          gemara_field data "layer" = Some (JStr "Layer 3") ->
          match_policy_url url = Some expected ->
          gemara_field data "policy-id" = Some found ->
          found <> JStr expected ->
          errors run
          = List.flat_map (url_errors controls_dir) (before ++ after)
          /\ warnings run
             = List.flat_map (url_warnings controls_dir) before
               ++ PolicyIdMismatch (cf_path artifact) expected found
                  :: List.flat_map (url_warnings controls_dir) after).
Proof.
  intros architecture_dir controls_dir Hurls run urls.
  destruct (main_per_url architecture_dir controls_dir Hurls)
    as (He & Hw & Hexit).
  fold run urls in He, Hw, Hexit.
  assert (exit_code run = 1%Z <-> errors run <> []) as Hfail.
  { rewrite Hexit. by destruct (errors run). }
  split; [done|]. split; [rewrite Hexit; by destruct (errors run)|].
  split; [done|]. split; [done|]. split.
  - rewrite Hfail, He. apply flat_map_not_nil.
  - intros before url after artifact data expected found
      Hsplit Hfind Hload Hvalid Hlayer Hurl Hpid Hne.
    rewrite He, Hw, Hsplit, !flat_map_app. cbn [flat_map].
    unfold url_errors at 2, url_warnings at 2. rewrite Hfind, Hvalid.
    cbn [fst app].
    by rewrite (policy_warnings_mismatch artifact data url expected found).
Qed.

Lemma run_fails_iff_errors_witness :
  errors (main (Some architecture) (Some controls))
  = List.flat_map (url_errors controls)
      ([plain_url] ++ ["gemara://policies/p/controls/missing"])
  /\ warnings (main (Some architecture) (Some controls))
     = List.flat_map (url_warnings controls) [plain_url]
       ++ PolicyIdMismatch (cf_path layer3_file) "p" (JStr "other")
          :: List.flat_map (url_warnings controls)
               ["gemara://policies/p/controls/missing"].
Proof.
  destruct (run_fails_iff_errors architecture controls) as (_ & _ & _ & _ & _ & Hone).
  - vm_compute. discriminate.
  - apply (Hone [plain_url] layer3_url ["gemara://policies/p/controls/missing"]
             layer3_file layer3_artifact "p" (JStr "other"));
      try (vm_compute; reflexivity).
    discriminate.
Defined.

(** C7, as stated, fails: the scan resumes where a match ends, so an
    occurrence of the grammar that lies inside a match is not collected.
    In the text of [nested], [gemara://b] is followed by a quote and
    matches the grammar, but it lies in the match that starts at
    [gemara://a]. *)
Lemma collects_every_match_counterexample :
  (exists af content,
     In af nested /\ af_read_text af = Some content
     /\ url_occurrence content "gemara://b")
  /\ ~ In "gemara://b" (extract_gemara_urls nested)
  /\ extract_gemara_urls nested = ["gemara://a gemara://b"].
Proof.
  split; [|split].
  - eexists _, _. split; [by left|]. split; [reflexivity|].
    exists (String quote "gemara://a "), "b", (String quote EmptyString).
    repeat split; try done. right. by eexists.
  - vm_compute. intros [H|[]]. discriminate H.
  - by vm_compute.
Qed.

(** C7 (amended): extraction returns, in strictly ascending order and hence
    without duplicates, exactly the matches that [findall] finds for the
    pattern in the text of some readable architecture document, scanning
    from left to right and resuming where a match ends; each of them is an
    occurrence of [gemara://] followed by one or more characters other than
    the quote, up to the next quote or the end of the text, and every such
    occurrence lies in one of them and ends where it ends; and a run checks
    every extracted URL in that order, its errors and warnings being what
    the URLs contribute, one after the other, whether or not an earlier URL
    contributed an error. *)
Theorem extraction_then_accumulation :
  (forall architecture_dir,
     StronglySorted String.le (extract_gemara_urls architecture_dir)
     /\ NoDup (extract_gemara_urls architecture_dir)
     /\ forall u,
          In u (extract_gemara_urls architecture_dir)
          <-> exists af content,
                In af architecture_dir /\ af_read_text af = Some content
                /\ In u (findall content))
  /\ (forall content,
        (forall u, In u (findall content) -> url_occurrence content u)
        /\ covered content (findall content))
  /\ (forall architecture_dir controls_dir,
        extract_gemara_urls architecture_dir <> [] ->
        let run := main (Some architecture_dir) (Some controls_dir) in
        let urls := extract_gemara_urls architecture_dir in
        errors run = List.flat_map (url_errors controls_dir) urls
        /\ warnings run = List.flat_map (url_warnings controls_dir) urls
        /\ forall before url after,
             urls = before ++ url :: after ->
             errors run
             = List.flat_map (url_errors controls_dir) before
               ++ url_errors controls_dir url
               ++ List.flat_map (url_errors controls_dir) after).
Proof.
  split; [|split].
  - intros architecture_dir. unfold extract_gemara_urls.
    destruct (sorted_spec
                (fold_left
                   (fun (urls : gset string) arch_file =>
                      match af_read_text arch_file with
                      | Some content => urls ∪ list_to_set (findall content)
                      | None => urls
                      end) architecture_dir ∅)) as (Hs & Hnd & Hin).
    split; [done|]. split; [done|]. intros u.
    rewrite Hin, urls_fold_elem. split; [|by right].
    intros [Hempty|?]; [|done]. by apply not_elem_of_empty in Hempty.
  - intros content. split.
    + intros u. apply findall_from_sound.
    + intros pre c rest Hs Hc.
      apply (findall_from_covers content 0 pre c rest Hs Hc). lia.
  - intros architecture_dir controls_dir Hurls run urls.
    destruct (main_per_url architecture_dir controls_dir Hurls)
      as (He & Hw & _).
    fold run urls in He, Hw. split; [done|]. split; [done|].
    intros before url after Hsplit.
    rewrite He, Hsplit, flat_map_app. by cbn [flat_map].
Qed.

Lemma extraction_then_accumulation_witness :
  errors (main (Some architecture) (Some controls))
  = List.flat_map (url_errors controls) (extract_gemara_urls architecture)
  /\ warnings (main (Some architecture) (Some controls))
     = List.flat_map (url_warnings controls) (extract_gemara_urls architecture)
  /\ forall before url after,
       extract_gemara_urls architecture = before ++ url :: after ->
       errors (main (Some architecture) (Some controls))
       = List.flat_map (url_errors controls) before
         ++ url_errors controls url
         ++ List.flat_map (url_errors controls) after.
Proof.
  apply (proj2 (proj2 extraction_then_accumulation) architecture controls).
  vm_compute. discriminate.
Defined.

(** ** Further properties of the validator *)

Section MoreValidation.

Lemma find_first {A : Type} (p : A -> bool) l x :
  List.find p l = Some x
  <-> exists l1 l2,
        l = l1 ++ x :: l2 /\ p x = true /\ forall y, In y l1 -> p y = false.
Proof.
  induction l as [|a l IH]; simpl.
  - split; [done|]. intros (l1 & l2 & Hl & _). by destruct l1.
  - destruct (p a) eqn:Hpa.
    + split.
      * intros [= <-]. exists [], l. by repeat split.
      * intros ([|b l1] & l2 & Hl & Hx & Hl1); simpl in Hl.
        -- by injection Hl as <- _.
        -- injection Hl as <- _. rewrite Hl1 in Hpa; [done|by left].
    + rewrite IH. split.
      * intros (l1 & l2 & -> & Hx & Hl1). exists (a :: l1), l2.
        split; [done|]. split; [done|]. intros y [<-|Hy]; [done|by apply Hl1].
      * intros ([|b l1] & l2 & Hl & Hx & Hl1); simpl in Hl.
        -- injection Hl as -> _. congruence.
        -- injection Hl as _ ->. exists l1, l2. split; [done|].
           split; [done|]. intros y Hy. apply Hl1. by right.
Qed.

Lemma identity_test cf url :
  match cf_load cf with
  | Json data =>
      match get data "$id" (JStr EmptyString) with
      | Ok file_id => eq_str file_id url
      | Raise _ => false
      end
  | _ => false
  end = true
  <-> has_identity cf url.
Proof.
  unfold has_identity. destruct (cf_load cf) as [data| |].
  - destruct data as [| | | | |o]; simpl;
      try (split; [done|by intros (? & [=] & _)]).
    rewrite eq_str_true. split.
    + intros Hid. by exists o.
    + by intros (o' & [= <-] & Hid).
  - split; [done|by intros (? & [=] & _)].
  - split; [done|by intros (? & [=] & _)].
Qed.

Lemma validate_data_shape data url r :
  validate_data data url = Ok r ->
  r = (true, None) \/ exists msg, r = (false, Some msg).
Proof.
  intros H. unfold validate_data in H.
  crack H; try discriminate; injection H as <-; eauto.
Qed.

Lemma validate_control_file_shape cf url :
  validate_control_file cf url = (true, None)
  \/ exists msg, validate_control_file cf url = (false, Some msg).
Proof.
  unfold validate_control_file. destruct (cf_load cf) as [data| |]; [|eauto..].
  destruct (validate_data data url) as [r|e] eqn:Hv; [|eauto].
  by apply validate_data_shape in Hv.
Qed.

Lemma resolvesb_true controls_dir url :
  resolvesb controls_dir url = true <-> resolves controls_dir url.
Proof.
  unfold resolvesb, resolves.
  destruct (find_control_file url controls_dir) as [cf|].
  - destruct (validate_control_file_shape cf url) as [Hv|[msg Hv]];
      rewrite Hv; simpl.
    + split; [by exists cf|done].
    + split; [done|]. intros (cf' & [= <-] & Hv'). congruence.
  - split; [done|]. by intros (cf & [=] & _).
Qed.

Lemma check_policy_id_length cf url :
  List.length (check_policy_id cf url) <= 1.
Proof.
  unfold check_policy_id, get, mbind, result_bind.
  repeat case_match; simplify_eq; simpl; lia.
Qed.

(** One URL gives one error, or at most one warning. *)
Lemma check_url_diagnostics controls_dir url :
  List.length (fst (check_url controls_dir ([], []) url))
  = (if resolvesb controls_dir url then 0 else 1)
  /\ List.length (snd (check_url controls_dir ([], []) url))
     <= (if resolvesb controls_dir url then 1 else 0).
Proof.
  unfold check_url, resolvesb.
  destruct (find_control_file url controls_dir) as [cf|]; [|simpl; lia].
  destruct (validate_control_file cf url) as [[] msg]; simpl; [|lia].
  split; [done|]. apply check_policy_id_length.
Qed.

Lemma contributions_lengths controls_dir urls :
  List.length (fst (contributions controls_dir urls))
  = List.length (List.filter (fun url => negb (resolvesb controls_dir url)) urls)
  /\ List.length (fst (contributions controls_dir urls))
     + List.length (snd (contributions controls_dir urls))
     <= List.length urls.
Proof.
  unfold contributions. cbn [fst snd].
  induction urls as [|url urls [IH1 IH2]]; cbn [flat_map List.filter].
  - split; [done|simpl; lia].
  - rewrite !length_app.
    destruct (check_url_diagnostics controls_dir url) as [He Hw].
    rewrite He, IH1.
    destruct (resolvesb controls_dir url); cbn [negb List.length]; split; lia.
Qed.

Lemma contributions_no_error controls_dir urls :
  fst (contributions controls_dir urls) = []
  <-> forall url, In url urls -> resolves controls_dir url.
Proof.
  unfold contributions. cbn [fst snd].
  induction urls as [|url urls IH]; cbn [flat_map In].
  - split; [by intros _ ? []|done].
  - destruct (check_url_diagnostics controls_dir url) as [He _]. split.
    + intros [Hu Hrest]%app_eq_nil url' [<-|Hin].
      * apply resolvesb_true. rewrite Hu in He. simpl in He.
        by destruct (resolvesb controls_dir url).
      * by apply IH.
    + intros Hall.
      assert (resolvesb controls_dir url = true) as Hr
        by (apply resolvesb_true, Hall; by left).
      rewrite Hr in He. apply length_zero_iff_nil in He. rewrite He.
      apply IH. intros url' Hin. apply Hall. by right.
Qed.

Lemma main_report architecture_dir controls_dir url urls :
  extract_gemara_urls architecture_dir = url :: urls ->
  let run := main (Some architecture_dir) (Some controls_dir) in
  errors run = fst (contributions controls_dir (url :: urls))
  /\ warnings run = snd (contributions controls_dir (url :: urls))
  /\ exit_code run = (if errors run is [] then 0 else 1)%Z.
Proof.
  intros He. unfold main. rewrite He, check_urls_accumulate.
  destruct (contributions controls_dir (url :: urls)) as [es ws].
  cbn [app fst snd]. by destruct es.
Qed.

End MoreValidation.

(** X1: the lookup returns the first file, in the order of the listing,
    whose document is an object with the URL as its [$id]; it returns
    nothing exactly when the directory has no such file; and files that do
    not load as a JSON object never take part. *)
Theorem lookup_first_with_identity :
  forall url controls_dir,
    (forall cf,
       find_control_file url controls_dir = Some cf
       <-> exists before after,
             controls_dir = before ++ cf :: after
             /\ has_identity cf url
             /\ forall cf', In cf' before -> ~ has_identity cf' url)
    /\ (find_control_file url controls_dir = None
        <-> forall cf, In cf controls_dir -> ~ has_identity cf url)
    /\ find_control_file url controls_dir
       = find_control_file url (List.filter loads_object controls_dir).
Proof.
  intros url controls_dir. split; [|split].
  - intros cf. unfold find_control_file. rewrite find_first.
    split; intros (l1 & l2 & Hl & Hx & Hl1); exists l1, l2;
      (split; [done|]); (split; [by apply identity_test|]); intros y Hy.
    + rewrite <- identity_test. apply not_true_iff_false. by apply Hl1.
    + apply not_true_iff_false. rewrite identity_test. by apply Hl1.
  - unfold find_control_file. split.
    + intros Hnone cf Hin. rewrite <- identity_test.
      apply not_true_iff_false. by apply (find_none _ _ Hnone).
    + intros Hall.
      destruct (List.find _ controls_dir) as [cf|] eqn:Hfind; [|done].
      apply find_some in Hfind as [Hin Hid]. apply identity_test in Hid.
      by destruct (Hall cf Hin).
  - unfold find_control_file.
    induction controls_dir as [|cf dir IH]; [done|].
    cbn [List.filter List.find]. unfold loads_object at 1.
    destruct (cf_load cf) as [[| | | | |o]| |] eqn:Hload;
      cbn [List.find]; rewrite ?Hload; simpl; try done.
    by destruct (eq_str _ url).
Qed.

Lemma lookup_first_with_identity_witness :
  exists before after,
    stranger :: controls = before ++ layer3_file :: after
    /\ has_identity layer3_file layer3_url
    /\ forall cf', In cf' before -> ~ has_identity cf' layer3_url.
Proof.
  apply (proj1 (proj1 (lookup_first_with_identity layer3_url
                         (stranger :: controls)) layer3_file)).
  reflexivity.
Defined.

(** X2: structural validation returns either success without a message or
    failure with a message, and it succeeds exactly when the file loads as a
    document that has the fields required always and those required by its
    layer: for Layer 3 a policy id and a base requirement, for Layer 2 a
    catalog id. *)
Theorem structural_validation_characterised :
  forall cf url,
    (validate_control_file cf url = (true, None)
     \/ exists msg, validate_control_file cf url = (false, Some msg))
    /\ (validate_control_file cf url = (true, None)
        <-> exists data,
              cf_load cf = Json data
              /\ always_required data url /\ layer_required data).
Proof.
  intros cf url. split.
  - apply validate_control_file_shape.
  - apply validate_control_file_true.
Qed.

Lemma structural_validation_characterised_witness :
  exists data,
    cf_load layer3_file = Json data
    /\ always_required data layer3_url /\ layer_required data.
Proof.
  apply (proj1 (proj2 (structural_validation_characterised
                         layer3_file layer3_url))).
  reflexivity.
Defined.

Section MoreRun.

(** On an artifact with the fields required always, structural validation
    comes down to the tests of the layer. *)
Lemma validate_data_common data url :
  always_required data url ->
  exists g,
    gemara_meta_of data = Some g
    /\ validate_data data url
       = (if eq_str (default (JStr EmptyString) (g !! "layer")) "Layer 3" then
            if negb (bool_decide (is_Some (g !! "policy-id")))
            then Ok (false,
                     Some (LayerMissingRequiredField "Layer 3"
                             "metadata.gemara.policy-id"))
            else if negb (bool_decide (is_Some (g !! "base-requirement")))
            then Ok (false,
                     Some (LayerMissingRequiredField "Layer 3"
                             "metadata.gemara.base-requirement"))
            else Ok (true, None)
          else if eq_str (default (JStr EmptyString) (g !! "layer")) "Layer 2"
          then
            if negb (bool_decide (is_Some (g !! "catalog-id")))
            then Ok (false,
                     Some (LayerMissingRequiredField "Layer 2"
                             "metadata.gemara.catalog-id"))
            else Ok (true, None)
          else Ok (true, None)).
Proof.
  intros (Hid & Hc & Hr & Hs & Ha).
  unfold artifact_id, gemara_field, gemara_meta_of, top_field in *.
  destruct data as [| | | | |o]; try by destruct Hc.
  destruct (o !! "metadata") as [[| | | | |m]|] eqn:Hmd; try by destruct Hr.
  destruct (m !! "gemara") as [[| | | | |g]|] eqn:Hg; try by destruct Hr.
  exists g. split; [done|].
  unfold validate_data. simpl. rewrite Hid. simpl. rewrite Hmd.
  rewrite (bool_decide_eq_true_2 (is_Some (o !! "control-id"))) by done.
  rewrite (bool_decide_eq_true_2 (is_Some (Some (JObj m)))) by eauto.
  simpl. rewrite Hg. simpl.
  assert (size g <> 0) as Hsz.
  { destruct Hr as [x Hx]. intros Hz. apply map_size_empty_iff in Hz.
    by rewrite Hz, lookup_empty in Hx. }
  rewrite (bool_decide_eq_false_2 _ Hsz). simpl.
  rewrite (bool_decide_eq_true_2 (is_Some (g !! "requirement-id"))) by done.
  rewrite (bool_decide_eq_true_2 (is_Some (g !! "source"))) by done.
  rewrite (bool_decide_eq_true_2 (is_Some (g !! "applicability"))) by done.
  simpl. by rewrite (bool_decide_eq_true_2 (url = url)).
Qed.

Lemma validate_data_layer3_policy data url :
  always_required data url ->
  gemara_field data "layer" = Some (JStr "Layer 3") ->
  gemara_field data "policy-id" = None ->
  validate_data data url
  = Ok (false,
        Some (LayerMissingRequiredField "Layer 3" "metadata.gemara.policy-id")).
Proof.
  intros Hreq Hl Hp. destruct (validate_data_common data url Hreq) as (g & Hg & ->).
  unfold gemara_field in *. rewrite Hg in *. by rewrite Hl, Hp.
Qed.

Lemma validate_data_layer3_base data url :
  always_required data url ->
  gemara_field data "layer" = Some (JStr "Layer 3") ->
  is_Some (gemara_field data "policy-id") ->
  gemara_field data "base-requirement" = None ->
  validate_data data url
  = Ok (false,
        Some (LayerMissingRequiredField "Layer 3"
                "metadata.gemara.base-requirement")).
Proof.
  intros Hreq Hl Hp Hb. destruct (validate_data_common data url Hreq) as (g & Hg & ->).
  unfold gemara_field in *. rewrite Hg in *. rewrite Hl, Hb. simpl.
  by rewrite (bool_decide_eq_true_2 (is_Some (g !! "policy-id"))).
Qed.

Lemma validate_data_layer2_catalog data url :
  always_required data url ->
  gemara_field data "layer" = Some (JStr "Layer 2") ->
  gemara_field data "catalog-id" = None ->
  validate_data data url
  = Ok (false,
        Some (LayerMissingRequiredField "Layer 2" "metadata.gemara.catalog-id")).
Proof.
  intros Hreq Hl Hcat. destruct (validate_data_common data url Hreq) as (g & Hg & ->).
  unfold gemara_field in *. rewrite Hg in *. by rewrite Hl, Hcat.
Qed.

Lemma check_policy_id_In cf url w :
  In w (check_policy_id cf url)
  <-> exists data expected,
        cf_load cf = Json data
        /\ gemara_field data "layer" = Some (JStr "Layer 3")
        /\ match_policy_url url = Some expected
        /\ default (JStr EmptyString) (gemara_field data "policy-id")
           <> JStr expected
        /\ w = PolicyIdMismatch (cf_path cf) expected
                 (default (JStr EmptyString) (gemara_field data "policy-id")).
Proof.
  unfold check_policy_id, gemara_field, gemara_meta_of, top_field. split.
  - destruct (cf_load cf) as [data| |]; [|done..].
    destruct data as [| | | | |o]; try done. simpl.
    destruct (o !! "metadata") as [[| | | | |m]|] eqn:Hmd; simpl;
      try (repeat (rewrite lookup_empty; simpl); done).
    destruct (m !! "gemara") as [[| | | | |g]|] eqn:Hg; simpl;
      try (repeat (rewrite lookup_empty; simpl); done).
    destruct (eq_str (default JNull (g !! "layer")) "Layer 3") eqn:Hl;
      simpl; [|done].
    destruct (g !! "layer") as [layer|] eqn:Hlayer; simpl in Hl; [|done].
    apply eq_str_true in Hl as ->.
    destruct (match_policy_url url) as [expected|] eqn:Hurl; simpl; [|done].
    destruct (eq_str (default (JStr EmptyString) (g !! "policy-id")) expected)
      eqn:Hp; simpl; [done|].
    intros [<-|[]]. exists (JObj o), expected. rewrite Hmd, Hg.
    repeat split; try done. intros Heq. rewrite Heq in Hp. simpl in Hp.
    by rewrite bool_decide_eq_true_2 in Hp.
  - intros (data & expected & -> & Hl & Hurl & Hne & ->).
    destruct data as [| | | | |o]; try done.
    destruct (o !! "metadata") as [[| | | | |m]|] eqn:Hmd; try done.
    destruct (m !! "gemara") as [[| | | | |g]|] eqn:Hg; try done.
    simpl. rewrite Hmd. simpl. rewrite Hg. simpl. rewrite Hl. simpl.
    rewrite Hurl. simpl.
    destruct (eq_str (default (JStr EmptyString) (g !! "policy-id")) expected)
      eqn:Hp; simpl; [|by left].
    by apply eq_str_true in Hp.
Qed.

Lemma match_policy_url_baseUrl a b c : match_policy_url (baseUrl a b c) = None.
Proof. reflexivity. Qed.

End MoreRun.

(** X3: a run exits with status 0 or 1, and with status 0 exactly when both
    directories exist and every extracted URL has an artifact that
    structural validation accepts. *)
Theorem run_succeeds_iff_all_resolve :
  forall architecture_dir controls_dir,
    (exit_code (main architecture_dir controls_dir) = 0%Z
     \/ exit_code (main architecture_dir controls_dir) = 1%Z)
    /\ (exit_code (main architecture_dir controls_dir) = 0%Z
        <-> exists files artifacts,
              architecture_dir = Some files
              /\ controls_dir = Some artifacts
              /\ forall url,
                   In url (extract_gemara_urls files) ->
                   resolves artifacts url).
Proof.
  intros [files|] [artifacts|];
    try (split; [by right|]; split; [done|by intros (? & ? & ? & ? & _)]).
  destruct (extract_gemara_urls files) as [|url urls] eqn:He.
  - unfold main. rewrite He. simpl. split; [by left|]. split; [|done].
    intros _. exists files, artifacts. rewrite He. by repeat split.
  - destruct (main_report files artifacts url urls He) as (Herr & _ & Hexit).
    rewrite Hexit, Herr. split.
    + by destruct (fst (contributions artifacts (url :: urls))); [left|right].
    + split.
      * intros H0. exists files, artifacts. rewrite He.
        split; [done|]. split; [done|]. apply contributions_no_error.
        by destruct (fst (contributions artifacts (url :: urls))).
      * intros (files' & artifacts' & [= <-] & [= <-] & Hall).
        rewrite He in Hall. apply contributions_no_error in Hall.
        by rewrite Hall.
Qed.

Lemma run_succeeds_iff_all_resolve_witness :
  exists files artifacts,
    Some (take 1 architecture) = Some files
    /\ Some controls = Some artifacts
    /\ forall url,
         In url (extract_gemara_urls files) -> resolves artifacts url.
Proof.
  apply (proj1 (proj2 (run_succeeds_iff_all_resolve
                         (Some (take 1 architecture)) (Some controls)))).
  reflexivity.
Defined.

(** X4: the errors of a run are as many as the extracted URLs without an
    artifact that structural validation accepts, and errors and warnings
    together are never more than the extracted URLs: a URL gives one error,
    or at most one warning. *)
Theorem diagnostics_per_url :
  forall architecture_dir controls_dir,
    let run := main (Some architecture_dir) (Some controls_dir) in
    let urls := extract_gemara_urls architecture_dir in
    List.length (errors run)
    = List.length (List.filter (fun url => negb (resolvesb controls_dir url)) urls)
    /\ List.length (errors run) + List.length (warnings run)
       <= List.length urls
    /\ forall url, resolvesb controls_dir url = true <-> resolves controls_dir url.
Proof.
  intros files artifacts run urls. subst run urls.
  destruct (extract_gemara_urls files) as [|url urls] eqn:He.
  - unfold main. rewrite He. simpl.
    split; [done|]. split; [lia|]. intros url. apply resolvesb_true.
  - destruct (main_report files artifacts url urls He) as (He1 & He2 & _).
    rewrite He1, He2.
    destruct (contributions_lengths artifacts (url :: urls)) as [H1 H2].
    split; [done|]. split; [done|]. intros url'. apply resolvesb_true.
Qed.

(** X5: extraction depends only on the set of texts that the files of the
    directory yield: the order of the files, their names, repeated texts
    and unreadable files do not change the result. *)
Theorem extraction_depends_on_texts :
  forall dir1 dir2,
    (forall content, readable dir1 content <-> readable dir2 content) ->
    extract_gemara_urls dir1 = extract_gemara_urls dir2.
Proof.
  intros dir1 dir2 Hsame. unfold extract_gemara_urls. f_equal.
  apply set_eq. intros u. rewrite !urls_fold_elem.
  split; (intros [Hin|(af & content & Haf & Hread & Hu)]; [by left|]); right.
  - destruct (proj1 (Hsame content)) as (af' & ? & ?); [by exists af|].
    by exists af', content.
  - destruct (proj2 (Hsame content)) as (af' & ? & ?); [by exists af|].
    by exists af', content.
Qed.

Lemma extraction_depends_on_texts_witness :
  extract_gemara_urls architecture
  = extract_gemara_urls (drop 1 architecture ++ drop 1 architecture).
Proof.
  apply (extraction_depends_on_texts architecture
           (drop 1 architecture ++ drop 1 architecture)).
  intros content. unfold readable. simpl. split.
  - intros (af & [<-|[<-|[]]] & Hread); [done|]. eexists. split; [by left|done].
  - intros (af & [<-|[<-|[]]] & Hread); eexists; (split; [right; by left|done]).
Defined.

(** X6: the policy-id check gives at most one warning, and gives one
    exactly when the document is of Layer 3, the URL has the form
    [gemara://policies/<id>/controls/...] with a non-empty id without slash,
    and the policy id of the document (the empty string when it has none) is
    not that id; a base URL never gives a warning. *)
Theorem warning_only_on_layer3_mismatch :
  forall cf url,
    List.length (check_policy_id cf url) <= 1
    /\ (forall w,
          In w (check_policy_id cf url)
          <-> exists data expected,
                cf_load cf = Json data
                /\ gemara_field data "layer" = Some (JStr "Layer 3")
                /\ match_policy_url url = Some expected
                /\ default (JStr EmptyString) (gemara_field data "policy-id")
                   <> JStr expected
                /\ w = PolicyIdMismatch (cf_path cf) expected
                         (default (JStr EmptyString)
                            (gemara_field data "policy-id")))
    /\ (forall catalog control requirement,
          check_policy_id cf (baseUrl catalog control requirement) = []).
Proof.
  intros cf url. split; [apply check_policy_id_length|].
  split; [intros w; apply check_policy_id_In|].
  intros a b c.
  destruct (check_policy_id cf (baseUrl a b c)) as [|w ws] eqn:Hw; [done|].
  assert (In w (check_policy_id cf (baseUrl a b c))) as Hin
    by (rewrite Hw; by left).
  apply check_policy_id_In in Hin as (data & expected & _ & _ & Hm & _).
  by rewrite match_policy_url_baseUrl in Hm.
Qed.

Lemma warning_only_on_layer3_mismatch_witness :
  In (PolicyIdMismatch (cf_path layer3_file) "p" (JStr "other"))
     (check_policy_id layer3_file layer3_url).
Proof.
  apply (proj2 (proj1 (proj2 (warning_only_on_layer3_mismatch
                                layer3_file layer3_url)) _)).
  exists layer3_artifact, "p". repeat split; try reflexivity.
  vm_compute. discriminate.
Defined.

(** X7: structural validation reports an identity mismatch exactly when the
    file loads as an object whose [$id] (the empty string when it has none)
    is not the URL, whatever else the object holds or lacks: the identity is
    checked before any field. *)
Theorem identity_checked_first :
  forall cf url expected found,
    validate_control_file cf url = (false, Some (IdMismatch expected found))
    <-> expected = url
        /\ exists o,
             cf_load cf = Json (JObj o)
             /\ found = artifact_id (JObj o)
             /\ found <> JStr url.
Proof.
  intros cf url expected found. unfold validate_control_file. split.
  - destruct (cf_load cf) as [data| |]; [|done..].
    destruct (validate_data data url) as [r|e] eqn:Hv; [|done]. intros ->.
    pose proof (validate_data_IdMismatch _ _ _ _ Hv) as Hne.
    destruct data as [| | | | |o]; try done.
    unfold validate_data, artifact_id in *. simpl in *.
    rewrite Hne in Hv. simpl in Hv. injection Hv as <- <-.
    split; [done|]. exists o. split; [done|]. split; [done|].
    intros Heq. rewrite Heq in Hne. simpl in Hne.
    by rewrite bool_decide_eq_true_2 in Hne.
  - intros (-> & o & -> & -> & Hne). unfold validate_data, artifact_id in *.
    simpl in *.
    destruct (eq_str (default (JStr EmptyString) (o !! "$id")) url) eqn:Hid;
      [by apply eq_str_true in Hid|done].
Qed.

Lemma identity_checked_first_witness :
  validate_control_file stranger layer3_url
  = (false, Some (IdMismatch layer3_url (JStr plain_url))).
Proof.
  apply (proj2 (identity_checked_first stranger layer3_url layer3_url
                  (JStr plain_url))).
  split; [reflexivity|]. eexists. split; [reflexivity|].
  split; [reflexivity|]. discriminate.
Defined.

(** X8: on a document that has the fields required always, structural
    validation names the first missing field of its layer: for Layer 3 the
    policy id, then the base requirement; for Layer 2 the catalog id. *)
Theorem layer_fields_reported :
  forall cf data url,
    cf_load cf = Json data ->
    always_required data url ->
    (gemara_field data "layer" = Some (JStr "Layer 3") ->
     gemara_field data "policy-id" = None ->
     validate_control_file cf url
     = (false,
        Some (LayerMissingRequiredField "Layer 3" "metadata.gemara.policy-id")))
    /\ (gemara_field data "layer" = Some (JStr "Layer 3") ->
        is_Some (gemara_field data "policy-id") ->
        gemara_field data "base-requirement" = None ->
        validate_control_file cf url
        = (false,
           Some (LayerMissingRequiredField "Layer 3"
                   "metadata.gemara.base-requirement")))
    /\ (gemara_field data "layer" = Some (JStr "Layer 2") ->
        gemara_field data "catalog-id" = None ->
        validate_control_file cf url
        = (false,
           Some (LayerMissingRequiredField "Layer 2"
                   "metadata.gemara.catalog-id"))).
Proof.
  intros cf data url Hload Hreq. unfold validate_control_file. rewrite Hload.
  split; [|split].
  - intros Hl Hp. by rewrite (validate_data_layer3_policy data url).
  - intros Hl Hp Hb. by rewrite (validate_data_layer3_base data url).
  - intros Hl Hcat. by rewrite (validate_data_layer2_catalog data url).
Qed.

Lemma layer_fields_reported_witness :
  validate_control_file
    {| cf_path := "controls/draft.requirement.json";
       cf_load := Json layer3_without_policy |} layer3_url
  = (false,
     Some (LayerMissingRequiredField "Layer 3" "metadata.gemara.policy-id")).
Proof.
  apply (proj1 (layer_fields_reported
                  {| cf_path := "controls/draft.requirement.json";
                     cf_load := Json layer3_without_policy |}
                  layer3_without_policy layer3_url eq_refl
                  ltac:(repeat split; vm_compute; eauto)));
    reflexivity.
Defined.

(** ** Further properties of the resolver *)

Section MoreResolve.
Variable get_base_control :
  option string -> option string -> Control AssessmentRequirement.

Lemma Forall2_In_l {A B : Type} (P : A -> B -> Prop) l k x :
  Forall2 P l k -> In x l -> exists y, In y k /\ P x y.
Proof.
  induction 1 as [|x' y l k Hxy HF IH]; simpl; [done|].
  intros [->|Hin]; [by eauto|]. destruct (IH Hin) as (y' & ? & ?). by eauto.
Qed.

(** The output, segment by segment, with the requirement of the resolved
    control that each resolved requirement comes from. *)
Lemma resolve_with_per_segment policy out :
  resolve_with get_base_control policy = Ok out ->
  per_segment get_base_control
    (fun cr cm base seg =>
       Forall2
         (fun req r =>
            resolve_requirement (metadata_id policy) (reference_id cr)
              (cm_target_id cm) base
              (_apply_modifications base cm
                 (assessment_requirement_modifications cr))
              (assessment_requirement_modifications cr) req = Ok r)
         (merge (c_assessment_requirements base)
            (assessment_requirement_modifications cr))
         seg)
    policy out.
Proof.
  intros Hout.
  destruct (resolve_with_Ok get_base_control policy out Hout)
    as (parts & Hparts & HF).
  exists parts. split; [done|].
  eapply Forall2_impl; [exact HF|]. intros cr part Hpart. simpl in Hpart.
  apply resolve_control_ref_Ok in Hpart as (segs & -> & HF').
  exists segs. split; [done|].
  eapply Forall2_impl; [exact HF'|]. intros cm seg Hseg. simpl in Hseg.
  apply resolve_control_mod_Ok in Hseg. cbv zeta in Hseg.
  by rewrite apply_modifications_merge in Hseg.
Qed.

Lemma per_segment_impl (P Q : ControlRef -> ControlMod ->
    Control AssessmentRequirement -> list ResolvedRequirement -> Prop)
    policy out :
  (forall cr cm seg,
     In cr (control_references policy) ->
     In cm (control_modifications cr) ->
     P cr cm (get_base_control (reference_id cr) (cm_target_id cm)) seg ->
     Q cr cm (get_base_control (reference_id cr) (cm_target_id cm)) seg) ->
  per_segment get_base_control P policy out ->
  per_segment get_base_control Q policy out.
Proof.
  intros HPQ (parts & Hparts & HF). exists parts. split; [done|].
  apply Forall2_same_length_lookup in HF as [Hlen HF].
  apply Forall2_same_length_lookup. split; [done|].
  intros i cr part Hcr Hpart. destruct (HF i cr part Hcr Hpart) as (segs & Hsegs & HF').
  exists segs. split; [done|].
  apply Forall2_same_length_lookup in HF' as [Hlen' HF'].
  apply Forall2_same_length_lookup. split; [done|].
  intros j cm seg Hcm Hseg. apply HPQ.
  - apply list_elem_of_In. by apply (list_elem_of_lookup_2 _ i).
  - apply list_elem_of_In. by apply (list_elem_of_lookup_2 _ j).
  - by apply (HF' j).
Qed.

Lemma per_segment_In (P : ControlRef -> ControlMod ->
    Control AssessmentRequirement -> list ResolvedRequirement -> Prop)
    policy out r :
  per_segment get_base_control P policy out ->
  In r out ->
  exists cr cm seg,
    In cr (control_references policy)
    /\ In cm (control_modifications cr)
    /\ In r seg
    /\ P cr cm (get_base_control (reference_id cr) (cm_target_id cm)) seg.
Proof.
  intros (parts & -> & HF) Hr.
  apply in_concat in Hr as (part & Hpart & Hr).
  apply (Forall2_In_r _ _ _ _ HF) in Hpart as (cr & Hcr & segs & -> & HF').
  apply in_concat in Hr as (seg & Hseg & Hr).
  apply (Forall2_In_r _ _ _ _ HF') in Hseg as (cm & Hcm & HP).
  by exists cr, cm, seg.
Qed.

(** A requirement of a resolved control without an id makes the resolver
    raise. *)
Lemma resolve_requirement_id pid cat cid base res ams req r :
  resolve_requirement pid cat cid base res ams req = Ok r ->
  In req (merge (c_assessment_requirements base) ams) ->
  is_Some (req_id req).
Proof.
  intros Hr Hin. destruct (req_id req) as [rid|] eqn:Hid; [by eexists|].
  exfalso. unfold merge in Hin. apply in_app_iff in Hin as [Hin|Hin];
    apply in_map_iff in Hin as (x & <- & Hx).
  - by rewrite overridden_id in Hid.
  - apply first_unmatched_In in Hx as (Hx & _). simpl in Hid.
    unfold resolve_requirement in Hr. cbn [req_id new_requirement] in Hr.
    rewrite Hid in Hr.
    destruct (existsb _ ams) eqn:He; simpl in Hr; [done|].
    apply not_true_iff_false in He. apply He, existsb_exists.
    exists x. split; [done|]. by apply bool_decide_eq_true.
Qed.

Lemma for_each_raises {S A : Type} (body : S -> A -> result S) l :
  forall s e,
    for_each body l s = Raise e ->
    exists s' x, In x l /\ body s' x = Raise e.
Proof.
  induction l as [|x l IH]; intros s e; simpl; [done|].
  destruct (body s x) as [s'|e'] eqn:Hb; simpl.
  - intros Hl. destruct (IH s' e Hl) as (s'' & y & Hy & Hby).
    exists s'', y. split; [by right|done].
  - intros [= <-]. exists s, x. split; [by left|done].
Qed.

Lemma resolve_with_raises policy e :
  resolve_with get_base_control policy = Raise e ->
  e = AttributeError "'NoneType' object has no attribute 'split'".
Proof.
  intros H. apply for_each_raises in H as (acc & cr & _ & H).
  apply for_each_raises in H as (acc' & cm & _ & H).
  apply for_each_raises in H as (acc'' & req & _ & H).
  unfold resolve_requirement in H.
  destruct (existsb _ _); simpl in H; [|done].
  destruct (req_id req); simpl in H; [done|]. by injection H as <-.
Qed.

Lemma resolve_with_returns_iff policy :
  (exists out, resolve_with get_base_control policy = Ok out)
  <-> ~ untargeted_modification policy.
Proof.
  split.
  - intros [out Hout] (cr & am & Hcr & Hcms & Ham & Hnone).
    apply resolve_with_per_segment in Hout as (parts & _ & HF).
    apply (Forall2_In_l _ _ _ _ HF) in Hcr as (part & _ & segs & _ & HF').
    destruct (control_modifications cr) as [|cm cms] eqn:Hcm; [done|].
    destruct (Forall2_In_l _ _ _ cm HF') as (seg & _ & Hseg); [by left|].
    set (base := c_assessment_requirements
                   (get_base_control (reference_id cr) (cm_target_id cm))) in *.
    set (ams := assessment_requirement_modifications cr) in *.
    assert (unmatched base am = true) as Hu.
    { apply unmatched_spec. rewrite Hnone, in_map_iff. by intros (? & [=] & _). }
    pose proof (first_unmatched_complete base ams [] am Ham Hu) as Hin.
    apply in_map_iff in Hin as (am' & Heq & Hin); [|simpl; tauto].
    assert (In (new_requirement am') (merge base ams)) as Hreq.
    { unfold merge. apply in_app_iff. right. by apply in_map. }
    apply (Forall2_In_l _ _ _ _ Hseg) in Hreq as (r & _ & Hr).
    apply resolve_requirement_id in Hr as [rid Hrid].
    + simpl in Hrid. congruence.
    + unfold merge. apply in_app_iff. right. by apply in_map.
  - intros Hn. unfold resolve_with. apply for_each_returns.
    intros acc cr Hcr. unfold resolve_control_ref. apply for_each_returns.
    intros acc' cm Hcm. unfold resolve_control_mod. apply for_each_returns.
    intros acc'' req Hreq. unfold resolve_requirement.
    destruct (existsb _ _) eqn:Hm; simpl; [|by eexists].
    destruct (req_id req) as [rid|] eqn:Hid; simpl; [by eexists|].
    apply apply_modifications_id_origin in Hreq as [[? Hs]|(am & Ham & Heq)];
      [congruence|].
    destruct Hn. exists cr, am. split; [done|]. split; [|split; [done|congruence]].
    intros Hnil. by rewrite Hnil in Hcm.
Qed.

End MoreResolve.

Section MoreResolved.
Variable get_base_control :
  option string -> option string -> Control AssessmentRequirement.

Lemma resolve_requirement_titles pid cat cid base cm ams req r :
  resolve_requirement pid cat cid base (_apply_modifications base cm ams) ams req
  = Ok r ->
  control_title r
  = match override (cm_title cm) (c_title base) with
    | Some t => Some t
    | None => cid
    end
  /\ control_objective r
     = default EmptyString (override (cm_objective cm) (c_objective base)).
Proof.
  unfold resolve_requirement.
  destruct (existsb _ ams); [destruct (req_id req)|]; simpl; [|done|];
    intros [= <-]; simpl; unfold override.
  - split.
    + destruct (cm_title cm) as [t|]; simpl; [|by destruct (c_title base)].
      destruct (bool_decide (t = EmptyString)); simpl; [|done].
      by destruct (c_title base).
    + destruct (cm_objective cm) as [t|]; simpl; [|by destruct (c_objective base)].
      destruct (bool_decide (t = EmptyString)); simpl; [|done].
      by destruct (c_objective base).
  - split.
    + destruct (cm_title cm) as [t|]; simpl; [|by destruct (c_title base)].
      destruct (bool_decide (t = EmptyString)); simpl; [|done].
      by destruct (c_title base).
    + destruct (cm_objective cm) as [t|]; simpl; [|by destruct (c_objective base)].
      destruct (bool_decide (t = EmptyString)); simpl; [|done].
      by destruct (c_objective base).
Qed.



End MoreResolved.

(** X9: every requirement that the resolver returns has a string as its
    requirement id, carries the id of the policy, and has both URLs built
    from the policy, catalog, control and requirement ids of the record
    itself. *)
Theorem resolved_requirements_well_formed :
  forall get_base_control policy out,
    resolve_with get_base_control policy = Ok out ->
    forall r, In r out -> well_formed r /\ policy_id r = metadata_id policy.
Proof.
  intros gbc policy out Hout r Hr.
  apply resolve_with_per_segment in Hout.
  destruct (per_segment_In gbc _ policy out r Hout Hr)
    as (cr & cm & seg & _ & _ & Hin & HF).
  apply (Forall2_In_r _ _ _ _ HF) in Hin as (req & Hreq & Hres).
  destruct (resolve_requirement_id _ _ _ _ _ _ _ _ Hres Hreq) as [rid Hrid].
  apply resolve_requirement_Ok
    in Hres as (Hid & Hcid & Hcat & Hpid & _ & _ & _ & Hurl & Hbase & _).
  split; [|done]. exists rid. rewrite Hid, Hcid, Hcat, Hpid, Hurl, Hbase, Hrid.
  by repeat split.
Qed.

Lemma resolved_requirements_well_formed_witness :
  well_formed (placeholder_resolved "p")
  /\ policy_id (placeholder_resolved "p") = metadata_id (placeholder_policy "p").
Proof.
  apply (resolved_requirements_well_formed _get_base_control
           (placeholder_policy "p") [placeholder_resolved "p"] eq_refl).
  simpl. by left.
Defined.

(** X10: the resolver returns a list exactly when no control reference
    that has a control modification also has an assessment-requirement
    modification without target id; otherwise it raises, and the only
    exception it raises is the AttributeError of [None.split]. *)
Theorem resolver_returns_iff_targeted :
  forall get_base_control policy,
    ((exists out, resolve_with get_base_control policy = Ok out)
     <-> ~ untargeted_modification policy)
    /\ (forall e,
          resolve_with get_base_control policy = Raise e ->
          e = AttributeError "'NoneType' object has no attribute 'split'").
Proof.
  intros gbc policy. split.
  - apply resolve_with_returns_iff.
  - apply resolve_with_raises.
Qed.

Lemma resolver_returns_iff_targeted_witness :
  exists out, resolve_with _get_base_control (placeholder_policy "p") = Ok out.
Proof.
  apply (proj2 (proj1 (resolver_returns_iff_targeted _get_base_control
                         (placeholder_policy "p")))).
  intros (cr & am & [<-|[]] & _ & [<-|[]] & Hnone). discriminate Hnone.
Defined.

(** X11: the output is cut into one segment per control modification,
    in order, and the segment of a control modification holds, in order, the
    requirement ids of the control resolved for it.  Every requirement of
    that segment carries the target id of the modification as control id
    and the reference id of its control reference as catalog id; its control
    title is the title of the modification when that is present and not
    empty, else the title of the base control, else the control id; its
    control objective is the objective of the modification when present and
    not empty, else the one of the base control, else the empty string. *)
Theorem control_fields_override :
  forall get_base_control policy out,
    resolve_with get_base_control policy = Ok out ->
    per_segment get_base_control
      (fun cr cm base seg =>
         List.map requirement_id seg
         = requirement_ids
             (_apply_modifications base cm
                (assessment_requirement_modifications cr))
         /\ forall r, In r seg ->
              control_id r = cm_target_id cm
              /\ catalog_id r = reference_id cr
              /\ control_title r
                 = match override (cm_title cm) (c_title base) with
                   | Some t => Some t
                   | None => cm_target_id cm
                   end
              /\ control_objective r
                 = default EmptyString
                     (override (cm_objective cm) (c_objective base)))
      policy out.
Proof.
  intros gbc policy out Hout. apply resolve_with_per_segment in Hout.
  eapply per_segment_impl; [|exact Hout]. simpl.
  intros cr cm seg _ _ HF. split.
  - unfold requirement_ids. rewrite apply_modifications_merge.
    apply Forall2_map_eq. eapply Forall2_impl; [exact HF|].
    intros req r Hr. by apply resolve_requirement_Ok in Hr as [? _].
  - intros r Hr.
    apply (Forall2_In_r _ _ _ _ HF) in Hr as (req & _ & Hres).
    destruct (resolve_requirement_titles _ _ _ _ _ _ _ _ Hres) as [Ht Ho].
    apply resolve_requirement_Ok in Hres as (_ & Hcid & Hcat & _).
    by repeat split.
Qed.

Lemma control_fields_override_witness :
  per_segment _get_base_control
    (fun cr cm base seg =>
       List.map requirement_id seg
       = requirement_ids
           (_apply_modifications base cm
              (assessment_requirement_modifications cr))
       /\ forall r, In r seg ->
            control_id r = cm_target_id cm
            /\ catalog_id r = reference_id cr
            /\ control_title r
               = match override (cm_title cm) (c_title base) with
                 | Some t => Some t
                 | None => cm_target_id cm
                 end
            /\ control_objective r
               = default EmptyString
                   (override (cm_objective cm) (c_objective base)))
    {| metadata_id := "p"; control_references := [two_controls; retitled] |}
    (two_controls_resolved ++ [retitled_resolved]).
Proof.
  apply (control_fields_override _get_base_control
           {| metadata_id := "p";
              control_references := [two_controls; retitled] |}
           (two_controls_resolved ++ [retitled_resolved])).
  reflexivity.
Defined.



(** ** Properties of the generators *)

Section Writes.
Context {A V : Type}.
Variable key : A -> string.
Variable val : A -> V.

(** A loop of writes [m[key x] = val x] leaves under each key the last
    value written there. *)
Lemma fold_insert_other l :
  forall (m : gmap string V) k,
    (forall x, In x l -> key x <> k) ->
    fold_left (fun m x => <[key x := val x]> m) l m !! k = m !! k.
Proof.
  induction l as [|x l IH]; intros m k Hk; simpl; [done|].
  rewrite IH by (intros y Hy; apply Hk; by right).
  apply lookup_insert_ne, Hk. by left.
Qed.

Lemma fold_insert_last before x after (m : gmap string V) :
  (forall y, In y after -> key y <> key x) ->
  fold_left (fun m x => <[key x := val x]> m) (before ++ x :: after) m
    !! key x = Some (val x).
Proof.
  intros Hafter. rewrite fold_left_app. simpl.
  rewrite fold_insert_other by done. apply lookup_insert_eq.
Qed.

Lemma fold_insert_origin l :
  forall (m : gmap string V) k v,
    fold_left (fun m x => <[key x := val x]> m) l m !! k = Some v ->
    (m !! k = Some v /\ forall y, In y l -> key y <> k)
    \/ exists before x after,
         l = before ++ x :: after /\ key x = k /\ v = val x
         /\ forall y, In y after -> key y <> key x.
Proof.
  induction l as [|x l IH]; intros m k v; simpl; [by left|].
  intros Hk.
  apply IH in Hk as [[Hk Hl]|(before & y & after & -> & Hy & Hv & Hafter)].
  - destruct (decide (key x = k)) as [Hx|Hx].
    + right. exists [], x, l. rewrite <- Hx in Hk.
      rewrite lookup_insert_eq in Hk. injection Hk as <-.
      repeat split; try done. intros y Hy. rewrite Hx. by apply Hl.
    + left. rewrite lookup_insert_ne in Hk by done. split; [done|].
      intros y [<-|Hy]; [done|by apply Hl].
  - right. exists (x :: before), y, after. by repeat split.
Qed.

End Writes.

Section Generate.
Variable lower : string -> string.
Variable write_text :
  string -> json -> gmap string json -> gmap string json * option exn.

Lemma filename_name_of r :
  is_Some (requirement_id r) ->
  filename lower (requirement_id r) = Ok (name_of lower r).
Proof. intros [rid Hrid]. unfold filename, name_of. by rewrite Hrid. Qed.

(** Over requirements that have an id and whose file names the file system
    accepts, the generator is a loop of writes. *)
Lemma generate_control_files_app before rest :
  forall dir,
    (forall r, In r before -> is_Some (requirement_id r)) ->
    (forall r, In r before -> accepts write_text (name_of lower r)) ->
    generate_control_files lower write_text (before ++ rest) dir
    = generate_control_files lower write_text rest
        (fold_left (fun d r => <[name_of lower r := control_file_of r]> d)
           before dir).
Proof.
  induction before as [|r before IH]; intros dir Hids Hacc; simpl; [done|].
  rewrite filename_name_of by (apply Hids; by left).
  destruct (Hacc r) as [_ ->]; [by left|].
  apply IH; intros r' Hr'; [apply Hids|apply Hacc]; by right.
Qed.

Lemma generate_control_files_writes rs :
  forall dir,
    (forall r, In r rs -> is_Some (requirement_id r)) ->
    (forall r, In r rs -> accepts write_text (name_of lower r)) ->
    generate_control_files lower write_text rs dir
    = (fold_left (fun d r => <[name_of lower r := control_file_of r]> d) rs dir,
       None).
Proof.
  intros dir Hids Hacc.
  rewrite <- (app_nil_r rs) at 1. by rewrite generate_control_files_app.
Qed.

Lemma generate_control_files_stops before r after :
  forall dir,
    (forall r', In r' before -> is_Some (requirement_id r')) ->
    (forall r', In r' before -> accepts write_text (name_of lower r')) ->
    requirement_id r = None ->
    generate_control_files lower write_text (before ++ r :: after) dir
    = (fold_left (fun d r => <[name_of lower r := control_file_of r]> d)
         before dir,
       Some (AttributeError "'NoneType' object has no attribute 'replace'")).
Proof.
  intros dir Hids Hacc Hnone. rewrite generate_control_files_app by done.
  simpl. by rewrite Hnone.
Qed.

Lemma generate_control_files_fails before r after :
  forall dir dir' e,
    (forall r', In r' before -> is_Some (requirement_id r')) ->
    (forall r', In r' before -> accepts write_text (name_of lower r')) ->
    is_Some (requirement_id r) ->
    write_text (name_of lower r) (control_file_of r)
      (fold_left (fun d r => <[name_of lower r := control_file_of r]> d)
         before dir)
    = (dir', Some e) ->
    generate_control_files lower write_text (before ++ r :: after) dir
    = (dir', Some e).
Proof.
  intros dir dir' e Hids Hacc Hid Hwrite.
  rewrite generate_control_files_app by done.
  simpl. rewrite filename_name_of by done. by rewrite Hwrite.
Qed.

(** The document generated for a requirement passes structural validation
    against the URL of that requirement. *)
Lemma control_file_of_required r :
  always_required (control_file_of r) (gemara_url r)
  /\ layer_required (control_file_of r)
  /\ gemara_field (control_file_of r) "layer" = Some (JStr "Layer 3")
  /\ gemara_field (control_file_of r) "policy-id" = Some (JStr (policy_id r)).
Proof.
  split; [|split; [|split; reflexivity]].
  - repeat split; try reflexivity; eexists; reflexivity.
  - split; [intros _; split; eexists; reflexivity|].
    intros Hl. vm_compute in Hl. discriminate Hl.
Qed.

Lemma control_file_of_valid path r :
  validate_control_file
    {| cf_path := path; cf_load := Json (control_file_of r) |} (gemara_url r)
  = (true, None).
Proof.
  apply validate_control_file_true. exists (control_file_of r).
  destruct (control_file_of_required r) as (? & ? & _). by repeat split.
Qed.

Lemma control_file_of_identity r url :
  artifact_id (control_file_of r) = JStr url -> gemara_url r = url.
Proof. by intros [=]. Qed.

Lemma listing_In dir names cf :
  In cf (listing dir names)
  <-> exists name data,
        In name names /\ dir !! name = Some data
        /\ cf = {| cf_path := name; cf_load := Json data |}.
Proof.
  unfold listing. rewrite <- list_elem_of_In, list_elem_of_omap. split.
  - intros (name & Hname & Hcf). apply list_elem_of_In in Hname.
    destruct (dir !! name) as [data|] eqn:Hd; [|done].
    injection Hcf as <-. by exists name, data.
  - intros (name & data & Hname & Hd & ->). exists name.
    split; [by apply list_elem_of_In|]. by rewrite Hd.
Qed.

End Generate.

Section Mapping.
Variable lower : string -> string.
Variable control_files_dir : string.
Variable base_requirements_dir : option string.

Lemma canonicalUrl_not_baseUrl p c r a b c' :
  canonicalUrl p c r <> baseUrl a b c'.
Proof. unfold canonicalUrl, baseUrl. intros H. by injection H. Qed.

Lemma well_formed_urls r r' :
  well_formed r -> well_formed r' -> gemara_url r <> base_requirement_url r'.
Proof.
  intros (rid & _ & -> & _) (rid' & _ & _ & ->).
  apply canonicalUrl_not_baseUrl.
Qed.

Lemma generate_mapping_writes rs :
  forall m,
    (forall r, In r rs -> is_Some (requirement_id r)) ->
    for_each (add_mapping lower control_files_dir base_requirements_dir) rs m
    = Ok (fold_left (fun m kv => <[fst kv := snd kv]> m)
            (mapping_writes lower control_files_dir base_requirements_dir rs)
            m).
Proof.
  unfold mapping_writes.
  induction rs as [|r rs IH]; intros m Hids; [done|].
  cbn [for_each flat_map].
  assert (add_mapping lower control_files_dir base_requirements_dir m r
          = Ok (fold_left (fun m kv => <[fst kv := snd kv]> m)
                  ((gemara_url r, policy_path lower control_files_dir r)
                   :: match base_requirements_dir with
                      | Some dir =>
                          [(base_requirement_url r, base_path lower dir r)]
                      | None => []
                      end) m)) as ->.
  { unfold add_mapping. rewrite filename_name_of by (apply Hids; by left).
    simpl. by destruct base_requirements_dir. }
  cbn [mbind result_bind]. rewrite fold_left_app.
  apply IH. intros r' Hr'. apply Hids. by right.
Qed.

Lemma generate_mapping_raises rs :
  forall m r,
    In r rs -> requirement_id r = None ->
    for_each (add_mapping lower control_files_dir base_requirements_dir) rs m
    = Raise (AttributeError "'NoneType' object has no attribute 'replace'").
Proof.
  induction rs as [|r' rs IH]; intros m r Hin Hnone; [done|].
  cbn [for_each].
  destruct (add_mapping lower control_files_dir base_requirements_dir m r')
    as [m'|e] eqn:Hstep; cbn [mbind result_bind].
  - destruct Hin as [->|Hin]; [|by apply (IH _ r)].
    unfold add_mapping in Hstep. by rewrite Hnone in Hstep.
  - unfold add_mapping, filename in Hstep.
    destruct (requirement_id r'); simpl in Hstep; [|congruence].
    by destruct base_requirements_dir.
Qed.

Lemma mapping_writes_In rs kv :
  In kv (mapping_writes lower control_files_dir base_requirements_dir rs)
  -> exists r,
       In r rs
       /\ (kv = (gemara_url r, policy_path lower control_files_dir r)
           \/ exists dir,
                base_requirements_dir = Some dir
                /\ kv = (base_requirement_url r, base_path lower dir r)).
Proof.
  unfold mapping_writes. rewrite in_flat_map. intros (r & Hr & Hkv).
  exists r. split; [done|]. destruct Hkv as [<-|Hkv]; [by left|].
  destruct base_requirements_dir as [dir|]; [|done].
  destruct Hkv as [<-|[]]. right. by exists dir.
Qed.

Lemma mapping_policy_entry before r after :
  (forall r', In r' (before ++ r :: after) -> well_formed r') ->
  (forall r', In r' after -> gemara_url r' <> gemara_url r) ->
  fold_left (fun m kv => <[fst kv := snd kv]> m)
    (mapping_writes lower control_files_dir base_requirements_dir
       (before ++ r :: after)) (∅ : gmap string string)
    !! gemara_url r
  = Some (policy_path lower control_files_dir r).
Proof.
  intros Hwf Hlast. unfold mapping_writes. rewrite flat_map_app.
  cbn [flat_map]. rewrite <- app_comm_cons.
  apply (fold_insert_last fst snd _
           (gemara_url r, policy_path lower control_files_dir r)).
  intros kv [Hkv|Hkv]%in_app_iff; simpl.
  - destruct base_requirements_dir as [dir|]; [|done].
    destruct Hkv as [<-|[]]. simpl. apply not_eq_sym, well_formed_urls;
      apply Hwf, in_app_iff; right; by left.
  - apply mapping_writes_In in Hkv as (r' & Hr' & [->|(dir & _ & ->)]); simpl.
    + by apply Hlast.
    + apply not_eq_sym, well_formed_urls; apply Hwf, in_app_iff; right;
        [by left|by right].
Qed.

Lemma mapping_base_entry dir before r after :
  base_requirements_dir = Some dir ->
  (forall r', In r' (before ++ r :: after) -> well_formed r') ->
  (forall r', In r' after -> base_requirement_url r' <> base_requirement_url r) ->
  fold_left (fun m kv => <[fst kv := snd kv]> m)
    (mapping_writes lower control_files_dir base_requirements_dir
       (before ++ r :: after)) (∅ : gmap string string)
    !! base_requirement_url r
  = Some (base_path lower dir r).
Proof.
  intros Hdir Hwf Hlast. unfold mapping_writes.
  rewrite flat_map_app, fold_left_app. cbn [flat_map]. rewrite fold_left_app.
  rewrite (fold_insert_other fst snd).
  - rewrite Hdir. simpl. apply lookup_insert_eq.
  - intros kv Hkv.
    apply mapping_writes_In in Hkv as (r' & Hr' & [->|(dir' & _ & ->)]); simpl.
    + apply well_formed_urls; apply Hwf, in_app_iff; right; [by right|by left].
    + by apply Hlast.
Qed.

End Mapping.

Section Generated.
Variable lower : string -> string.
Variable write_text :
  string -> json -> gmap string json -> gmap string json * option exn.

Lemma generated_origin rs name data :
  (forall r, In r rs -> is_Some (requirement_id r)) ->
  (forall r, In r rs -> accepts write_text (name_of lower r)) ->
  generated lower write_text rs !! name = Some data ->
  exists r,
    last_with (name_of lower) rs r
    /\ name = name_of lower r /\ data = control_file_of r.
Proof.
  intros Hids Hacc. unfold generated.
  rewrite generate_control_files_writes by done. simpl. intros Hd.
  apply fold_insert_origin
    in Hd as [[Hd _]|(before & r & after & -> & <- & -> & Hlast)].
  - by rewrite lookup_empty in Hd.
  - exists r. split; [|done]. by exists before, after.
Qed.

Lemma generated_last rs r :
  (forall r', In r' rs -> is_Some (requirement_id r')) ->
  (forall r', In r' rs -> accepts write_text (name_of lower r')) ->
  last_with (name_of lower) rs r ->
  generated lower write_text rs !! name_of lower r = Some (control_file_of r).
Proof.
  intros Hids Hacc (before & after & -> & Hlast). unfold generated.
  rewrite generate_control_files_writes by done. simpl.
  by apply (fold_insert_last (name_of lower) control_file_of).
Qed.

Lemma find_in_generated rs names url cf :
  (forall r, In r rs -> is_Some (requirement_id r)) ->
  (forall r, In r rs -> accepts write_text (name_of lower r)) ->
  find_control_file url (listing (generated lower write_text rs) names)
  = Some cf ->
  exists r,
    last_with (name_of lower) rs r
    /\ gemara_url r = url
    /\ cf = {| cf_path := name_of lower r; cf_load := Json (control_file_of r) |}.
Proof.
  intros Hids Hacc Hfind.
  apply find_control_file_Some in Hfind as (Hin & o & Hload & Hid).
  apply listing_In in Hin as (name & data & _ & Hdata & ->).
  apply generated_origin in Hdata as (r & Hlast & -> & ->); [|done..].
  exists r. split; [done|]. split; [|done].
  simpl in Hload. injection Hload as Hload. rewrite <- Hload in Hid.
  by apply control_file_of_identity.
Qed.

Lemma match_policy_url_nested q rest c r :
  mentions "/" q = false -> q <> EmptyString ->
  match_policy_url (canonicalUrl (q +:+ "/controls/" +:+ rest) c r) = Some q.
Proof.
  intros Hq Hne. unfold match_policy_url, canonicalUrl.
  rewrite strip_prefix_append, !append_assoc.
  rewrite slash_controls, (span_not_stop _ _ _ Hq), <- slash_controls.
  rewrite strip_prefix_append. by destruct q.
Qed.

Lemma match_policy_url_plain p c r :
  mentions "/" p = false ->
  match_policy_url (canonicalUrl p c r) = None
  \/ match_policy_url (canonicalUrl p c r) = Some p.
Proof.
  intros Hp. destruct p as [|a p]; [by left|].
  right. by apply match_policy_url_canonicalUrl.
Qed.

End Generated.

(** X13: the document that [generate_control_files] builds for a resolved
    requirement is of Layer 3 and passes structural validation against the
    gemara URL of that requirement, whatever the fields of the requirement
    hold. *)
Theorem generated_file_validates :
  forall r path,
    validate_control_file
      {| cf_path := path; cf_load := Json (control_file_of r) |} (gemara_url r)
    = (true, None)
    /\ gemara_field (control_file_of r) "layer" = Some (JStr "Layer 3")
    /\ artifact_id (control_file_of r) = JStr (gemara_url r).
Proof.
  intros r path. split; [apply control_file_of_valid|].
  split; reflexivity.
Qed.

(** X14: when the validator finds the document generated for a requirement
    whose URLs are built from its ids and whose policy id has no slash, the
    URL of that requirement adds neither an error nor a warning; but for a
    policy id that continues with [/controls/] after a first part without
    slash, the policy-id check warns about the generated document, taking
    that first part for the policy id. *)
Theorem generated_file_no_diagnostic :
  forall r path,
    well_formed r ->
    (mentions "/" (policy_id r) = false ->
     forall controls_dir errors warnings,
       find_control_file (gemara_url r) controls_dir
       = Some {| cf_path := path; cf_load := Json (control_file_of r) |} ->
       check_url controls_dir (errors, warnings) (gemara_url r)
       = (errors, warnings))
    /\ (forall q rest,
          policy_id r = q +:+ "/controls/" +:+ rest ->
          mentions "/" q = false -> q <> EmptyString ->
          check_policy_id
            {| cf_path := path; cf_load := Json (control_file_of r) |}
            (gemara_url r)
          = [PolicyIdMismatch path q (JStr (policy_id r))]).
Proof.
  intros r path (rid & Hrid & Hurl & _). split.
  - intros Hp controls_dir errors warnings Hfind.
    unfold check_url. rewrite Hfind, control_file_of_valid. simpl.
    destruct (check_policy_id _ _) as [|w ws] eqn:Hw; [by rewrite app_nil_r|].
    assert (In w (check_policy_id
                    {| cf_path := path; cf_load := Json (control_file_of r) |}
                    (gemara_url r))) as Hin by (rewrite Hw; by left).
    apply check_policy_id_In
      in Hin as (data & expected & [= <-] & _ & Hm & Hne & _).
    rewrite Hurl in Hm.
    destruct (match_policy_url_plain (policy_id r) (py_str (control_id r)) rid Hp)
      as [Hnone|Hsome]; [congruence|].
    rewrite Hsome in Hm. injection Hm as <-. by destruct Hne.
  - intros q rest Hpid Hq Hne.
    apply (check_policy_id_mismatch
             {| cf_path := path; cf_load := Json (control_file_of r) |}
             (control_file_of r) (gemara_url r) q (JStr (policy_id r)));
      try reflexivity.
    + rewrite Hurl, Hpid. by apply match_policy_url_nested.
    + intros [= Heq]. rewrite Hpid in Heq.
      assert (q +:+ "/controls/" +:+ rest = q +:+ EmptyString) as Heq'.
      { rewrite Heq. clear. induction q as [|a q IH]; [done|].
        by rewrite append_cons, <- IH. }
      apply (inj (String.append q)) in Heq'. by rewrite slash_controls in Heq'.
Qed.

Lemma generated_file_no_diagnostic_witness :
  check_url [layer3_file;
             {| cf_path := "ccc-c01-tr01.requirement.json";
                cf_load := Json (control_file_of (placeholder_resolved "q")) |}]
    ([], []) (gemara_url (placeholder_resolved "q"))
  = ([], []).
Proof.
  apply (proj1 (generated_file_no_diagnostic (placeholder_resolved "q")
                  "ccc-c01-tr01.requirement.json"
                  ltac:(eexists; repeat split; reflexivity)));
    reflexivity.
Defined.

(** X15: when every requirement has an id and the file system accepts the
    file name of every requirement (a name without slash, under which a
    write succeeds and replaces the file), [generate_control_files] ends
    without exception; each file then holds the document of the last
    requirement of the list with that file name, files under other names are
    as they were, and a file that changed holds the document of such a last
    requirement. *)
Theorem control_files_written :
  forall lower write_text rs dir,
    (forall r, In r rs -> is_Some (requirement_id r)) ->
    (forall r, In r rs -> accepts write_text (name_of lower r)) ->
    snd (generate_control_files lower write_text rs dir) = None
    /\ (forall r,
          last_with (name_of lower) rs r ->
          fst (generate_control_files lower write_text rs dir)
            !! name_of lower r
          = Some (control_file_of r))
    /\ (forall name,
          (forall r, In r rs -> name_of lower r <> name) ->
          fst (generate_control_files lower write_text rs dir) !! name
          = dir !! name)
    /\ (forall name data,
          fst (generate_control_files lower write_text rs dir) !! name
          = Some data ->
          dir !! name = Some data
          \/ exists r,
               last_with (name_of lower) rs r
               /\ name = name_of lower r /\ data = control_file_of r).
Proof.
  intros lower write_text rs dir Hids Hacc.
  rewrite generate_control_files_writes by done. simpl.
  split; [done|]. split; [|split].
  - intros r (before & after & -> & Hlast).
    by apply (fold_insert_last (name_of lower) control_file_of).
  - intros name Hname.
    by apply (fold_insert_other (name_of lower) control_file_of).
  - intros name data Hd.
    apply fold_insert_origin
      in Hd as [[Hd _]|(before & r & after & -> & <- & -> & Hlast)];
      [by left|].
    right. exists r. split; [|done]. by exists before, after.
Qed.

Lemma control_files_written_witness :
  snd (generate_control_files lower_ascii flat_write two_controls_resolved ∅)
  = None.
Proof.
  apply (control_files_written lower_ascii flat_write two_controls_resolved ∅).
  - intros r [<-|[<-|[<-|[<-|[]]]]]; eexists; reflexivity.
  - intros r [<-|[<-|[<-|[<-|[]]]]]; (split; [reflexivity|by intros]).
Defined.

(** X16: a requirement without an id stops both generators with the
    AttributeError of [None.replace]: when the requirements before it have
    an id and a file name that the file system accepts,
    [generate_control_files] has then written their files and none after,
    and [generate_mapping] writes no mapping at all. *)
Theorem generators_stop_without_id :
  forall lower write_text before r after,
    (forall r', In r' before -> is_Some (requirement_id r')) ->
    (forall r', In r' before -> accepts write_text (name_of lower r')) ->
    requirement_id r = None ->
    (forall dir,
       generate_control_files lower write_text (before ++ r :: after) dir
       = (fold_left (fun d r => <[name_of lower r := control_file_of r]> d)
            before dir,
          Some (AttributeError "'NoneType' object has no attribute 'replace'")))
    /\ (forall control_files_dir base_requirements_dir,
          generate_mapping lower (before ++ r :: after) control_files_dir
            base_requirements_dir
          = Raise
              (AttributeError "'NoneType' object has no attribute 'replace'")).
Proof.
  intros lower write_text before r after Hids Hacc Hnone. split.
  - intros dir. by apply generate_control_files_stops.
  - intros cfd brd. unfold generate_mapping.
    apply (generate_mapping_raises lower cfd brd _ _ r); [|done].
    apply in_app_iff. right. by left.
Qed.

Lemma generators_stop_without_id_witness :
  (forall dir,
     generate_control_files lower_ascii flat_write
       ([placeholder_resolved "p"] ++ without_id :: [retitled_resolved]) dir
     = (fold_left
          (fun d r => <[name_of lower_ascii r := control_file_of r]> d)
          [placeholder_resolved "p"] dir,
        Some (AttributeError "'NoneType' object has no attribute 'replace'")))
  /\ (forall control_files_dir base_requirements_dir,
        generate_mapping lower_ascii
          ([placeholder_resolved "p"] ++ without_id :: [retitled_resolved])
          control_files_dir base_requirements_dir
        = Raise (AttributeError "'NoneType' object has no attribute 'replace'")).
Proof.
  apply (generators_stop_without_id lower_ascii flat_write
           [placeholder_resolved "p"] without_id [retitled_resolved]).
  - intros r' [<-|[]]; eexists; reflexivity.
  - intros r' [<-|[]]; (split; [reflexivity|by intros]).
  - reflexivity.
Defined.

(** X17: after [generate_control_files] has written the files of
    requirements that all have an id and a file name that the file system
    accepts into an empty directory, the gemara URL of every requirement
    that is the last of the list with its file name has, in every listing
    of the directory that shows that file, an artifact that structural
    validation accepts. *)
Theorem generated_directory_resolves :
  forall lower write_text rs r names,
    (forall r', In r' rs -> is_Some (requirement_id r')) ->
    (forall r', In r' rs -> accepts write_text (name_of lower r')) ->
    last_with (name_of lower) rs r ->
    In (name_of lower r) names ->
    resolves (listing (generated lower write_text rs) names) (gemara_url r).
Proof.
  intros lower write_text rs r names Hids Hacc Hlast Hname. unfold resolves.
  destruct (find_control_file (gemara_url r)
              (listing (generated lower write_text rs) names))
    as [cf|] eqn:Hfind.
  - exists cf. split; [done|].
    apply find_in_generated in Hfind as (r' & _ & Hurl & ->); [|done..].
    rewrite <- Hurl. apply control_file_of_valid.
  - exfalso. unfold find_control_file in Hfind.
    set (cf := {| cf_path := name_of lower r;
                  cf_load := Json (control_file_of r) |}).
    assert (In cf (listing (generated lower write_text rs) names)) as Hin.
    { apply listing_In. exists (name_of lower r), (control_file_of r).
      split; [done|]. split; [by apply generated_last|done]. }
    pose proof (find_none _ _ Hfind cf Hin) as Hnone. cbv beta in Hnone.
    assert (has_identity cf (gemara_url r)) as Hid
      by (eexists; split; reflexivity).
    apply identity_test in Hid. congruence.
Qed.

Lemma generated_directory_resolves_witness :
  resolves
    (listing (generated lower_ascii flat_write two_controls_resolved)
       ["ccc-c01-tr01.requirement.json"; "ccc-x-tr09.requirement.json"])
    "gemara://policies/p/controls/CCC.C02/requirements/CCC.X.TR09".
Proof.
  apply (generated_directory_resolves lower_ascii flat_write
           two_controls_resolved
           (List.last two_controls_resolved without_id)).
  - intros r [<-|[<-|[<-|[<-|[]]]]]; eexists; reflexivity.
  - intros r [<-|[<-|[<-|[<-|[]]]]]; (split; [reflexivity|by intros]).
  - exists (take 3 two_controls_resolved), []. split; [reflexivity|].
    by intros r' [].
  - right. by left.
Defined.

Section WellFormed.

Lemma well_formed_id rs :
  (forall r, In r rs -> well_formed r) ->
  forall r, In r rs -> is_Some (requirement_id r).
Proof. intros Hwf r Hr. destruct (Hwf r Hr) as (rid & Hrid & _). by eexists. Qed.

End WellFormed.

(** X18: for requirements whose URLs are built from their ids,
    [generate_mapping] writes a mapping in which the gemara URL of a
    requirement that is the last of the list with that URL leads to its file
    under the control-files directory; with a base-requirements directory,
    its base URL (when it is the last with that URL) leads to the file of
    the same name under that directory; and every entry is one of these:
    without a base-requirements directory no base URL is mapped. *)
Theorem mapping_entries :
  forall lower rs control_files_dir base_requirements_dir,
    (forall r, In r rs -> well_formed r) ->
    exists mapping,
      generate_mapping lower rs control_files_dir base_requirements_dir
      = Ok mapping
      /\ (forall r,
            last_with gemara_url rs r ->
            mapping !! gemara_url r
            = Some (policy_path lower control_files_dir r))
      /\ (forall dir r,
            base_requirements_dir = Some dir ->
            last_with base_requirement_url rs r ->
            mapping !! base_requirement_url r = Some (base_path lower dir r))
      /\ (forall url path,
            mapping !! url = Some path ->
            exists r,
              In r rs
              /\ ((url = gemara_url r
                   /\ path = policy_path lower control_files_dir r)
                  \/ exists dir,
                       base_requirements_dir = Some dir
                       /\ url = base_requirement_url r
                       /\ path = base_path lower dir r)).
Proof.
  intros lower rs cfd brd Hwf. eexists. split.
  - unfold generate_mapping. apply generate_mapping_writes.
    by apply well_formed_id.
  - split; [|split].
    + intros r (before & after & -> & Hlast). by apply mapping_policy_entry.
    + intros dir r Hdir (before & after & -> & Hlast).
      by apply mapping_base_entry.
    + intros url path Hm.
      apply fold_insert_origin
        in Hm as [[Hm _]|(before & kv & after & Hw & <- & -> & _)].
      * by rewrite lookup_empty in Hm.
      * assert (In kv (mapping_writes lower cfd brd rs)) as Hkv.
        { rewrite Hw. apply in_app_iff. right. by left. }
        apply mapping_writes_In in Hkv as (r & Hr & [->|(dir & Hdir & ->)]);
          exists r; (split; [done|]); [by left|right; by exists dir].
Qed.

Lemma mapping_entries_witness :
  exists mapping,
    generate_mapping lower_ascii two_controls_resolved "controls/p"
      (Some "controls/base")
    = Ok mapping
    /\ mapping
         !! "gemara://policies/p/controls/CCC.C02/requirements/CCC.X.TR09"
       = Some "../controls/p/ccc-x-tr09.requirement.json".
Proof.
  destruct (mapping_entries lower_ascii two_controls_resolved "controls/p"
              (Some "controls/base"))
    as (mapping & Hm & Hpolicy & _).
  - intros r [<-|[<-|[<-|[<-|[]]]]]; eexists; repeat split; reflexivity.
  - exists mapping. split; [exact Hm|].
    apply (Hpolicy (List.last two_controls_resolved without_id)).
    exists (take 3 two_controls_resolved), []. split; [reflexivity|].
    by intros r' [].
Defined.

(** X19: for requirements whose URLs are built from their ids and whose
    file names the file system accepts, the mapping and the generated files
    agree on every requirement that is the last of the list both with its
    gemara URL and with its file name: the mapping leads from that URL to
    the file of that name, and the file of that name holds the document
    whose identity is that URL. *)
Theorem mapping_points_at_written_file :
  forall lower write_text rs control_files_dir base_requirements_dir r,
    (forall r', In r' rs -> well_formed r') ->
    (forall r', In r' rs -> accepts write_text (name_of lower r')) ->
    last_with gemara_url rs r ->
    last_with (name_of lower) rs r ->
    exists mapping data,
      generate_mapping lower rs control_files_dir base_requirements_dir
      = Ok mapping
      /\ mapping !! gemara_url r
         = Some ("../" +:+ control_files_dir +:+ "/" +:+ name_of lower r)
      /\ generated lower write_text rs !! name_of lower r = Some data
      /\ artifact_id data = JStr (gemara_url r).
Proof.
  intros lower write_text rs cfd brd r Hwf Hacc
    (before & after & -> & Hlast) Hname.
  eexists _, (control_file_of r). split.
  - unfold generate_mapping. apply generate_mapping_writes.
    by apply well_formed_id.
  - split; [by apply mapping_policy_entry|]. split; [|done].
    apply generated_last; [by apply well_formed_id|done..].
Qed.

Lemma mapping_points_at_written_file_witness :
  exists mapping data,
    generate_mapping lower_ascii two_controls_resolved "controls/p" None
    = Ok mapping
    /\ mapping
         !! gemara_url (List.last two_controls_resolved without_id)
       = Some ("../" +:+ "controls/p" +:+ "/"
               +:+ name_of lower_ascii (List.last two_controls_resolved without_id))
    /\ generated lower_ascii flat_write two_controls_resolved
         !! name_of lower_ascii (List.last two_controls_resolved without_id)
       = Some data
    /\ artifact_id data
       = JStr (gemara_url (List.last two_controls_resolved without_id)).
Proof.
  apply (mapping_points_at_written_file lower_ascii flat_write
           two_controls_resolved "controls/p" None
           (List.last two_controls_resolved without_id)).
  - intros r [<-|[<-|[<-|[<-|[]]]]]; eexists; repeat split; reflexivity.
  - intros r [<-|[<-|[<-|[<-|[]]]]]; (split; [reflexivity|by intros]).
  - exists (take 3 two_controls_resolved), []. split; [reflexivity|].
    by intros r' [].
  - exists (take 3 two_controls_resolved), []. split; [reflexivity|].
    by intros r' [].
Defined.

(** X20: after [generate_control_files] has written the files of
    requirements that all have an id and a file name that the file system
    accepts into an empty directory, a URL all of whose requirements had
    their file name taken again by a later requirement has no artifact in
    any listing of the directory: the validator reports the control file of
    that URL as missing. *)
Theorem overwritten_file_is_missing :
  forall lower write_text rs url names errors warnings,
    (forall r, In r rs -> is_Some (requirement_id r)) ->
    (forall r, In r rs -> accepts write_text (name_of lower r)) ->
    (forall r, In r rs -> gemara_url r = url ->
               ~ last_with (name_of lower) rs r) ->
    find_control_file url (listing (generated lower write_text rs) names)
    = None
    /\ check_url (listing (generated lower write_text rs) names)
         (errors, warnings) url
       = (errors ++ [MissingControlFile url], warnings).
Proof.
  intros lower write_text rs url names errors warnings Hids Hacc Hover.
  assert (find_control_file url
            (listing (generated lower write_text rs) names) = None)
    as Hnone.
  { destruct (find_control_file url _) as [cf|] eqn:Hfind; [|done].
    apply find_in_generated in Hfind as (r & Hlast & Hurl & _); [|done..].
    destruct (Hover r); [|done..].
    destruct Hlast as (before & after & -> & _).
    apply in_app_iff. right. by left. }
  split; [done|]. unfold check_url. by rewrite Hnone.
Qed.

Lemma overwritten_file_is_missing_witness :
  find_control_file
    "gemara://policies/p/controls/CCC.C01/requirements/CCC.X.TR09"
    (listing (generated lower_ascii flat_write two_controls_resolved)
       ["ccc-c01-tr01.requirement.json"; "ccc-x-tr09.requirement.json"])
  = None
  /\ check_url
       (listing (generated lower_ascii flat_write two_controls_resolved)
          ["ccc-c01-tr01.requirement.json"; "ccc-x-tr09.requirement.json"])
       ([], [])
       "gemara://policies/p/controls/CCC.C01/requirements/CCC.X.TR09"
     = ([] ++ [MissingControlFile
                 "gemara://policies/p/controls/CCC.C01/requirements/CCC.X.TR09"],
        []).
Proof.
  apply (overwritten_file_is_missing lower_ascii flat_write
           two_controls_resolved).
  - intros r [<-|[<-|[<-|[<-|[]]]]]; eexists; reflexivity.
  - intros r [<-|[<-|[<-|[<-|[]]]]]; (split; [reflexivity|by intros]).
  - intros r [<-|[<-|[<-|[<-|[]]]]] Hurl; try discriminate Hurl.
    intros (before & after & Hrs & Hlast).
    destruct before as [|b0 [|b1 [|b2 [|b3 before]]]];
      try discriminate Hrs.
    + injection Hrs as _ <-. apply (Hlast (List.last two_controls_resolved without_id)).
      * right. by left.
      * reflexivity.
    + destruct before; discriminate Hrs.
Defined.

(** X21: a write that raises stops [generate_control_files]: when the
    requirements before have an id and a file name that the file system
    accepts, the generator ends with the exception of the first failing
    write and with the directory as that write left it, whatever
    requirements come after.  So it is for the requirement that the
    resolver returns for a control id with a slash, in a directory without
    subdirectories. *)
Theorem generation_stops_at_failed_write :
  forall lower write_text before r after dir dir' e,
    (forall r', In r' before -> is_Some (requirement_id r')) ->
    (forall r', In r' before -> accepts write_text (name_of lower r')) ->
    is_Some (requirement_id r) ->
    write_text (name_of lower r) (control_file_of r)
      (fold_left (fun d r => <[name_of lower r := control_file_of r]> d)
         before dir)
    = (dir', Some e) ->
    generate_control_files lower write_text (before ++ r :: after) dir
    = (dir', Some e).
Proof.
  intros lower write_text before r after dir dir' e Hids Hacc Hid Hwrite.
  by apply generate_control_files_fails.
Qed.

Lemma generation_stops_at_failed_write_witness :
  generate_control_files lower_ascii flat_write
    ([placeholder_resolved "p"] ++ slash_id :: [retitled_resolved]) ∅
  = (<["ccc-c01-tr01.requirement.json" :=
         control_file_of (placeholder_resolved "p")]> ∅,
     Some (OSError "[Errno 2] No such file or directory")).
Proof.
  apply (generation_stops_at_failed_write lower_ascii flat_write
           [placeholder_resolved "p"] slash_id [retitled_resolved]).
  - intros r' [<-|[]]; eexists; reflexivity.
  - intros r' [<-|[]]; (split; [reflexivity|by intros]).
  - eexists; reflexivity.
  - reflexivity.
Defined.
